(** * Polymarket Edge Finder: the dashboard client and the engine contract

    A shallow embedding of the JavaScript front end (API client, [App]
    refresh handling, [OpportunityCard], [ScoreBar]) and of the engine
    interfaces the front end relies on, with the properties stated about
    them. *)

From Stdlib Require Import ZArith NArith QArith Lia Lra Psatz Bool List Ascii String.
From Stdlib Require Import Floats.
From stdpp Require Import base strings gmap list pretty.
Import ListNotations.

Set Warnings "-register-all".
Local Open Scope string_scope.

(** ** JavaScript values *)

Module Js.

(** ECMAScript numbers are left abstract: the client only tests them for
    truthiness and converts them to strings. *)
Class JsNumber (num : Type) := {
  number_truthy : num -> bool;      (* false for +0, -0 and NaN *)
  number_to_string : num -> string  (* Number::toString, radix 10 *)
}.

(** Integers as a concrete number model. *)
#[global] Instance JsNumber_Z : JsNumber Z := {
  number_truthy n := negb (Z.eqb n 0);
  number_to_string n := pretty n
}.

Section Values.
Context {num : Type} `{JsNumber num}.

Inductive value : Type :=
| VUndefined
| VNull
| VBool (b : bool)
| VNum (n : num)
| VStr (s : string)
| VArr (items : list value)
| VObj (props : list (string * value)).

Definition string_truthy (s : string) : bool :=
  match s with "" => false | _ => true end.

(** ToBoolean *)
Definition truthy (v : value) : bool :=
  match v with
  | VUndefined | VNull => false
  | VBool b => b
  | VNum n => number_truthy n
  | VStr s => string_truthy s
  | VArr _ | VObj _ => true
  end.

Fixpoint join (sep : string) (l : list string) : string :=
  match l with
  | [] => ""
  | [s] => s
  | s :: rest => s +:+ sep +:+ join sep rest
  end.

(** The string ToString gives when it completes ([converts] below says
    when it does): an array is joined with commas, [null] and [undefined]
    elements giving the empty string, a plain object is
    [[object Object]]. *)
Fixpoint to_string (v : value) : string :=
  match v with
  | VUndefined => "undefined"
  | VNull => "null"
  | VBool true => "true"
  | VBool false => "false"
  | VNum n => number_to_string n
  | VStr s => s
  | VArr items =>
      join "," (List.map (fun x => match x with
                                   | VUndefined | VNull => ""
                                   | _ => to_string x
                                   end) items)
  | VObj _ => "[object Object]"
  end.

(** [a || b] *)
Definition or_else (a b : value) : value := if truthy a then a else b.

(** Own-property lookup on a plain object, one whose prototype is
    [Object.prototype], as the objects [JSON.parse] builds are. *)
Fixpoint lookup_prop (key : string) (props : list (string * value)) : option value :=
  match props with
  | [] => None
  | (k, v) :: rest => if String.eqb k key then Some v else lookup_prop key rest
  end.

(** Exceptions: an [Error] with its message, the [TypeError] of a property
    read on [null] or [undefined], or whatever the platform rejected
    with. *)
Inductive exn : Type :=
| Error (message : string)
| TypeError (message : string)
| PlatformError (name : string).

(** Settled promise / completion of an async function. *)
Inductive outcome (A : Type) : Type :=
| Resolved (a : A)
| Rejected (e : exn).

(** [v.key] for a value that came out of [JSON.parse]: none of the
    prototypes of such values carries the keys read here. *)
Definition get (v : value) (key : string) : outcome value :=
  match v with
  | VUndefined | VNull =>
      Rejected _ (TypeError ("Cannot read properties of " +:+ to_string v))
  | VObj props => Resolved _ (default VUndefined (lookup_prop key props))
  | _ => Resolved _ VUndefined
  end.

(** Whether ToString completes. The values here hold no functions, so an
    object with an own [toString] property has no callable [toString],
    and its inherited [valueOf] gives back the object: the conversion to
    a primitive then throws. An array converts its elements in turn. *)
Fixpoint converts (v : value) : bool :=
  match v with
  | VObj props =>
      match lookup_prop "toString" props with Some _ => false | None => true end
  | VArr items =>
      forallb (fun x => match x with
                        | VUndefined | VNull => true
                        | _ => converts x
                        end) items
  | _ => true
  end.

(** ToString, with the TypeError of a conversion that does not complete. *)
Definition ToString (v : value) : outcome string :=
  if converts v then Resolved _ (to_string v)
  else Rejected _ (TypeError "Cannot convert object to primitive value").

End Values.

Arguments value : clear implicits.
Arguments Resolved {A}.
Arguments Rejected {A}.

(** Sequencing of steps that may throw. *)
#[global] Instance outcome_ret : MRet outcome := fun A a => Resolved a.
#[global] Instance outcome_bind : MBind outcome :=
  fun A B f m => match m with Resolved a => f a | Rejected e => Rejected e end.

End Js.

(** ** The API client (api/client.js) *)

Module Client.
Import Js.

(** *** [URLSearchParams] *)

Definition URLSearchParams : Type := list (string * string).

Definition unreserved (a : ascii) : bool :=
  let n := N_of_ascii a in
  ((48 <=? n) && (n <=? 57) || (65 <=? n) && (n <=? 90) || (97 <=? n) && (n <=? 122)
   || (n =? 42) || (n =? 45) || (n =? 46) || (n =? 95))%N.

Definition hex_digit (n : N) : ascii :=
  ascii_of_N (if (n <? 10)%N then 48 + n else 55 + n)%N.

Definition percent_encode (a : ascii) : string :=
  let n := N_of_ascii a in
  String "%" (String (hex_digit (n / 16)) (String (hex_digit (n mod 16)) "")).

(** application/x-www-form-urlencoded byte serializer (strings are taken
    as their UTF-8 bytes). *)
Fixpoint urlencode (s : string) : string :=
  match s with
  | EmptyString => ""
  | String a rest =>
      (if Ascii.eqb a " " then "+"
       else if unreserved a then String a ""
       else percent_encode a) +:+ urlencode rest
  end.

(** [params.toString()] *)
Definition params_toString (params : URLSearchParams) : string :=
  join "&" (List.map (fun kv => urlencode (fst kv) +:+ "=" +:+ urlencode (snd kv)) params).

Section Api.
Context {num : Type} `{JsNumber num}.

(** [params.append(name, value)] *)
Definition append (params : URLSearchParams) (name : string) (v : value num)
  : URLSearchParams :=
  (params ++ [(name, to_string v)])%list.

(** [if (v) params.append(name, v)] *)
Definition append_if (params : URLSearchParams) (name : string) (v : value num)
  : URLSearchParams :=
  if truthy v then append params name v else params.

(** The same two with the conversion of the value as it is: it may
    throw, and then nothing is appended. *)
Definition try_append (params : URLSearchParams) (name : string) (v : value num)
  : outcome URLSearchParams :=
  s ← ToString v; Resolved (params ++ [(name, s)])%list.

Definition try_append_if (params : URLSearchParams) (name : string) (v : value num)
  : outcome URLSearchParams :=
  if truthy v then try_append params name v else Resolved params.

(** [`${path}${query ? `?${query}` : ''}`] *)
Definition with_query (path : string) (params : URLSearchParams) : string :=
  let query := params_toString params in
  path +:+ (if string_truthy query then "?" +:+ query else "").

(** A [fetch] response. [ok] is what the Fetch standard defines it to be;
    [json] is the settlement of [response.json()]. *)
Record Response : Type := {
  status : N;
  json : outcome (value num)
}.

Definition ok (r : Response) : bool := ((200 <=? status r) && (status r <=? 299))%N.

(** The [options] argument of [request]. *)
Record RequestInit : Type := {
  method : option string;
  headers : option (list (string * string))
}.

Definition no_options : RequestInit := {| method := None; headers := None |}.

(** [{ headers: { 'Content-Type': ..., ...options.headers }, ...options }]:
    the trailing spread puts [options.headers] back when it is there. *)
Definition fetch_init (options : RequestInit) : RequestInit :=
  {| method := method options;
     headers := Some (match headers options with
                      | Some h => h
                      | None => [("Content-Type", "application/json")]
                      end) |}.

(** [import.meta.env.VITE_API_URL] and the network. *)
Variable VITE_API_URL : value num.
Variable fetch : string -> RequestInit -> outcome Response.

Definition API_BASE : value num := or_else VITE_API_URL (VStr "/api").

(** [`${API_BASE}${endpoint}`], for an [API_BASE] that converts. *)
Definition request_url (endpoint : string) : string :=
  to_string API_BASE +:+ endpoint.

Definition request (endpoint : string) (options : RequestInit)
  : outcome (value num) :=
  base ← ToString API_BASE;
  let url := base +:+ endpoint in
  response ← fetch url (fetch_init options);
  if negb (ok response) then
    let error := match json response with
                 | Resolved v => v
                 | Rejected _ => VObj []
                 end in
    detail ← get error "detail";
    message ← ToString
      (or_else detail (VStr ("Request failed: " +:+ pretty (status response))));
    Rejected (Error message)
  else json response.

Definition getStats : outcome (value num) := request "/stats" no_options.
Definition getStatus : outcome (value num) := request "/status" no_options.

Record MarketsArgs : Type := {
  category : value num;
  minScore : value num;
  minVolume : value num;
  limit : value num;
  offset : value num
}.

(** The parameters and the endpoint of [getMarkets] when every
    conversion to a string completes. *)
Definition getMarkets_params (a : MarketsArgs) : URLSearchParams :=
  let params := [] in
  let params := append_if params "category" (category a) in
  let params := append_if params "min_score" (minScore a) in
  let params := append_if params "min_volume" (minVolume a) in
  let params := append_if params "limit" (limit a) in
  let params := append_if params "offset" (offset a) in
  params.

Definition getMarkets_endpoint (a : MarketsArgs) : string :=
  with_query "/markets" (getMarkets_params a).

(** [getMarkets] as it runs: every [append] converts its value, and a
    conversion that throws ends the call. *)
Definition getMarkets_query (a : MarketsArgs) : outcome URLSearchParams :=
  params ← try_append_if [] "category" (category a);
  params ← try_append_if params "min_score" (minScore a);
  params ← try_append_if params "min_volume" (minVolume a);
  params ← try_append_if params "limit" (limit a);
  try_append_if params "offset" (offset a).

Definition getMarkets (a : MarketsArgs) : outcome (value num) :=
  params ← getMarkets_query a;
  request (with_query "/markets" params) no_options.

Record OpportunitiesArgs : Type := {
  edgeType : value num;
  minConfidence : value num;
  riskLevel : value num;
  opp_limit : value num
}.

Definition getOpportunities_params (a : OpportunitiesArgs) : URLSearchParams :=
  let params := [] in
  let params := append_if params "edge_type" (edgeType a) in
  let params := append_if params "min_confidence" (minConfidence a) in
  let params := append_if params "risk_level" (riskLevel a) in
  let params := append_if params "limit" (opp_limit a) in
  params.

Definition getOpportunities_endpoint (a : OpportunitiesArgs) : string :=
  with_query "/opportunities" (getOpportunities_params a).

(** [getOpportunities] as it runs. *)
Definition getOpportunities_query (a : OpportunitiesArgs)
  : outcome URLSearchParams :=
  params ← try_append_if [] "edge_type" (edgeType a);
  params ← try_append_if params "min_confidence" (minConfidence a);
  params ← try_append_if params "risk_level" (riskLevel a);
  try_append_if params "limit" (opp_limit a).

Definition getOpportunities (a : OpportunitiesArgs) : outcome (value num) :=
  params ← getOpportunities_query a;
  request (with_query "/opportunities" params) no_options.

Record PredictionsArgs : Type := {
  direction : value num;
  minEdge : value num;
  pred_limit : value num
}.

Definition getPredictions_params (a : PredictionsArgs) : URLSearchParams :=
  let params := [] in
  let params := append_if params "direction" (direction a) in
  let params := append_if params "min_edge" (minEdge a) in
  let params := append_if params "limit" (pred_limit a) in
  params.

Definition getPredictions_endpoint (a : PredictionsArgs) : string :=
  with_query "/predictions" (getPredictions_params a).

(** [getPredictions] as it runs. *)
Definition getPredictions_query (a : PredictionsArgs) : outcome URLSearchParams :=
  params ← try_append_if [] "direction" (direction a);
  params ← try_append_if params "min_edge" (minEdge a);
  try_append_if params "limit" (pred_limit a).

Definition getPredictions (a : PredictionsArgs) : outcome (value num) :=
  params ← getPredictions_query a;
  request (with_query "/predictions" params) no_options.

End Api.

Arguments Response : clear implicits.
Arguments MarketsArgs : clear implicits.
Arguments OpportunitiesArgs : clear implicits.
Arguments PredictionsArgs : clear implicits.

End Client.

(** ** Presentation components *)

Module OpportunityCard.

Record TypeInfo : Type := { label : string; color : string }.

(** The object literals are read as finite maps from property name to
    value; only own properties are modelled. *)
Definition EDGE_TYPE_LABELS : gmap string TypeInfo :=
  list_to_map
    [ ("arbitrage", {| label := "Arbitrage"; color := "green" |});
      ("mispricing", {| label := "Mispricing"; color := "yellow" |});
      ("correlation", {| label := "Correlation"; color := "blue" |});
      ("volume_signal", {| label := "Volume Signal"; color := "purple" |});
      ("liquidity_gap", {| label := "Liquidity Gap"; color := "blue" |}) ].

Definition RISK_COLORS : gmap string string :=
  list_to_map [ ("low", "green"); ("medium", "yellow"); ("high", "red") ].

(** [EDGE_TYPE_LABELS[edge_type] || { label: edge_type, color: 'gray' }] *)
Definition typeInfo (edge_type : string) : TypeInfo :=
  match EDGE_TYPE_LABELS !! edge_type with
  | Some info => info
  | None => {| label := edge_type; color := "gray" |}
  end.

(** [RISK_COLORS[risk_level] || 'gray'] *)
Definition riskColor (risk_level : string) : string :=
  match RISK_COLORS !! risk_level with
  | Some c => if Js.string_truthy c then c else "gray"
  | None => "gray"
  end.

(** Whether the card had to fall back to the raw string on gray. *)
Definition is_fallback (edge_type : string) : bool :=
  match EDGE_TYPE_LABELS !! edge_type with
  | Some _ => false
  | None => true
  end.

(** The edge types of the engine (README, "Edge Detection"). *)
Definition EDGE_TYPES : list string :=
  [ "arbitrage"; "mispricing"; "temporal"; "volume_signal"; "liquidity_gap" ].

End OpportunityCard.

Module ScoreBar.

Local Open Scope float_scope.

(** The props are numbers, that is IEEE 754 doubles. *)

(** [Math.max(a, b)] and [Math.min(a, b)] of two numbers: NaN when either
    is NaN, and -0 counts as below +0. *)
Definition Math_max (a b : float) : float :=
  if is_nan a || is_nan b then nan
  else if a <? b then b
  else if b <? a then a
  else match classify a with NZero => b | _ => a end.

Definition Math_min (a b : float) : float :=
  if is_nan a || is_nan b then nan
  else if a <? b then a
  else if b <? a then b
  else match classify a with PZero => b | _ => a end.

(** [Math.min(100, Math.max(0, (value / max) * 100))] *)
Definition percentage (value max : float) : float :=
  Math_min 100 (Math_max 0 ((value / max) * 100)).

Definition colorClass (percentage : float) : string :=
  if 70 <=? percentage then "high"%string
  else if 40 <=? percentage then "medium"%string
  else "low"%string.

(** What the component renders: the fill's class and its width in
    percent. [max] defaults to 100 when the prop is not given. *)
Record Fill : Type := { fill_class : string; fill_width : float }.

Definition ScoreBar (value : float) (max : option float) : Fill :=
  let max := match max with Some m => m | None => 100 end in
  let percentage := percentage value max in
  {| fill_class := colorClass percentage; fill_width := percentage |}.

End ScoreBar.

(** ** The application component (App.jsx) *)

Module App.

(** The handlers are asynchronous: each [await] parks a continuation that
    runs when the awaited request settles. A state of the component is
    its hook state together with the parked continuations, the live
    interval timers and the log of requests sent so far. A step is one
    browser event: a click, a timer tick, or the settlement of a request.
    Handlers are taken to see the hook state of the latest render. *)

Inductive tab : Type := MARKETS | OPPORTUNITIES | PREDICTIONS.

(** What the four list endpoints returned. *)
Record Data : Type := {
  statsData : option string;
  marketsData : list string;
  oppsData : list string;
  predsData : list string
}.

(** Requests the component sends. [FetchAll] is the [Promise.all] of
    [getStats], [getMarkets], [getOpportunities], [getPredictions]. *)
Inductive call : Type :=
| CallFetchAll
| CallLoadDemo
| CallRefresh (maxMarkets minVolume : N)
| CallStatus.

(** Parked continuations. *)
Inductive task : Type :=
| AwaitFetch                 (* fetchData, at [await Promise.all] *)
| AwaitDemo                  (* handleLoadDemo, at [await api.loadDemoData()] *)
| AwaitRefresh               (* handleRefresh, at [await api.refreshData] *)
| AwaitStatus (timer : nat). (* interval callback, at [await api.getStatus()] *)

Inductive settled (A : Type) : Type :=
| Fulfilled (a : A)
| Failed (message : string).
Arguments Fulfilled {A}.
Arguments Failed {A}.

Record State : Type := {
  activeTab : tab;
  stats : option string;
  markets : list string;
  opportunities : list string;
  predictions : list string;
  loading : bool;
  refreshing : bool;
  error : option string;
  tasks : list task;
  timers : list nat;
  next_timer : nat;
  calls : list call
}.

Inductive event : Type :=
| SelectTab (t : tab)
| ClickLoadDemo              (* header button *)
| ClickLoadDemoData          (* button of the empty markets tab *)
| ClickRefresh               (* header button *)
| Tick (timer : nat)
| FetchSettled (r : settled Data)
| DemoSettled (r : settled unit)
| RefreshSettled (r : settled unit)
| StatusSettled (timer : nat) (r : settled bool).  (* bool: status.is_loading *)

#[global] Instance task_eq_dec : EqDecision task.
Proof. solve_decision. Defined.

(** State on mount: the hooks' initial values, and the effect that calls
    [fetchData] once. *)
Definition initial : State :=
  {| activeTab := MARKETS; stats := None; markets := []; opportunities := [];
     predictions := []; loading := true; refreshing := false; error := None;
     tasks := [AwaitFetch]; timers := []; next_timer := 0;
     calls := [CallFetchAll] |}.

(** [disabled={loading || refreshing}] on both header buttons. *)
Definition loadDemo_disabled (s : State) : bool := loading s || refreshing s.
Definition refresh_disabled (s : State) : bool := loading s || refreshing s.

(** The empty-state button is rendered when nothing is loading, the
    markets tab is active and there are no markets. *)
Definition loadDemoData_rendered (s : State) : bool :=
  negb (loading s)
  && match activeTab s with MARKETS => true | _ => false end
  && match markets s with [] => true | _ => false end.

Definition set_loading (b : bool) (s : State) : State :=
  {| activeTab := activeTab s; stats := stats s; markets := markets s;
     opportunities := opportunities s; predictions := predictions s;
     loading := b; refreshing := refreshing s; error := error s;
     tasks := tasks s; timers := timers s; next_timer := next_timer s;
     calls := calls s |}.

Definition set_refreshing (b : bool) (s : State) : State :=
  {| activeTab := activeTab s; stats := stats s; markets := markets s;
     opportunities := opportunities s; predictions := predictions s;
     loading := loading s; refreshing := b; error := error s;
     tasks := tasks s; timers := timers s; next_timer := next_timer s;
     calls := calls s |}.

Definition set_error (e : option string) (s : State) : State :=
  {| activeTab := activeTab s; stats := stats s; markets := markets s;
     opportunities := opportunities s; predictions := predictions s;
     loading := loading s; refreshing := refreshing s; error := e;
     tasks := tasks s; timers := timers s; next_timer := next_timer s;
     calls := calls s |}.

Definition set_tab (t : tab) (s : State) : State :=
  {| activeTab := t; stats := stats s; markets := markets s;
     opportunities := opportunities s; predictions := predictions s;
     loading := loading s; refreshing := refreshing s; error := error s;
     tasks := tasks s; timers := timers s; next_timer := next_timer s;
     calls := calls s |}.

Definition set_data (d : Data) (s : State) : State :=
  {| activeTab := activeTab s; stats := statsData d; markets := marketsData d;
     opportunities := oppsData d; predictions := predsData d;
     loading := loading s; refreshing := refreshing s; error := error s;
     tasks := tasks s; timers := timers s; next_timer := next_timer s;
     calls := calls s |}.

Definition set_tasks (ts : list task) (s : State) : State :=
  {| activeTab := activeTab s; stats := stats s; markets := markets s;
     opportunities := opportunities s; predictions := predictions s;
     loading := loading s; refreshing := refreshing s; error := error s;
     tasks := ts; timers := timers s; next_timer := next_timer s;
     calls := calls s |}.

Definition set_timers (ts : list nat) (s : State) : State :=
  {| activeTab := activeTab s; stats := stats s; markets := markets s;
     opportunities := opportunities s; predictions := predictions s;
     loading := loading s; refreshing := refreshing s; error := error s;
     tasks := tasks s; timers := ts; next_timer := next_timer s;
     calls := calls s |}.

(** Send a request and park the continuation that awaits it. *)
Definition send (c : call) (t : task) (s : State) : State :=
  {| activeTab := activeTab s; stats := stats s; markets := markets s;
     opportunities := opportunities s; predictions := predictions s;
     loading := loading s; refreshing := refreshing s; error := error s;
     tasks := tasks s ++ [t]; timers := timers s; next_timer := next_timer s;
     calls := calls s ++ [c] |}.

(** [setInterval(callback, 2000)] *)
Definition setInterval (s : State) : State :=
  {| activeTab := activeTab s; stats := stats s; markets := markets s;
     opportunities := opportunities s; predictions := predictions s;
     loading := loading s; refreshing := refreshing s; error := error s;
     tasks := tasks s; timers := timers s ++ [next_timer s];
     next_timer := S (next_timer s); calls := calls s |}.

Definition clearInterval (timer : nat) (s : State) : State :=
  set_timers (List.filter (fun t => negb (Nat.eqb t timer)) (timers s)) s.

(** Take one parked continuation [t] out, if there is one. *)
Fixpoint remove_first (t : task) (ts : list task) : option (list task) :=
  match ts with
  | [] => None
  | t' :: rest =>
      if decide (t' = t) then Some rest
      else option_map (cons t') (remove_first t rest)
  end.

Definition resume (t : task) (s : State) : option State :=
  option_map (fun ts => set_tasks ts s) (remove_first t (tasks s)).

(** [fetchData], up to its [await]. *)
Definition fetchData (s : State) : State :=
  send CallFetchAll AwaitFetch (set_error None (set_loading true s)).

(** [handleLoadDemo], up to its first [await]. *)
Definition handleLoadDemo (s : State) : State :=
  send CallLoadDemo AwaitDemo (set_loading true s).

(** [handleRefresh], up to its [await]. *)
Definition handleRefresh (s : State) : State :=
  send (CallRefresh 100 1000) AwaitRefresh (set_error None (set_refreshing true s)).

(** One browser event; [None] when the event cannot happen in [s] (the
    button is disabled or not rendered, the timer is not live, no such
    request is outstanding). *)
Definition step (s : State) (e : event) : option State :=
  match e with
  | SelectTab t => Some (set_tab t s)
  | ClickLoadDemo =>
      if loadDemo_disabled s then None else Some (handleLoadDemo s)
  | ClickLoadDemoData =>
      if loadDemoData_rendered s then Some (handleLoadDemo s) else None
  | ClickRefresh =>
      if refresh_disabled s then None else Some (handleRefresh s)
  | Tick timer =>
      if existsb (Nat.eqb timer) (timers s)
      then Some (send CallStatus (AwaitStatus timer) s)
      else None
  | FetchSettled r =>
      s ← resume AwaitFetch s;
      Some (set_loading false
              match r with
              | Fulfilled d => set_data d s
              | Failed message => set_error (Some message) s
              end)
  | DemoSettled r =>
      s ← resume AwaitDemo s;
      Some match r with
           | Fulfilled _ => fetchData s
           | Failed message => set_loading false (set_error (Some message) s)
           end
  | RefreshSettled r =>
      s ← resume AwaitRefresh s;
      Some match r with
           | Fulfilled _ => setInterval s
           | Failed message => set_error (Some message) (set_refreshing false s)
           end
  | StatusSettled timer r =>
      s ← resume (AwaitStatus timer) s;
      Some match r with
           | Fulfilled is_loading =>
               if negb is_loading
               then fetchData (set_refreshing false (clearInterval timer s))
               else s
           | Failed message =>
               set_error (Some message)
                 (set_refreshing false (clearInterval timer s))
           end
  end.

Fixpoint run (s : State) (es : list event) : option State :=
  match es with
  | [] => Some s
  | e :: rest => s' ← step s e; run s' rest
  end.

(** States the component can be in. *)
Definition reachable (s : State) : Prop := exists es, run initial es = Some s.

(** How many requests of the kind of [c] were sent. *)
Definition same_kind (c c' : call) : bool :=
  match c, c' with
  | CallFetchAll, CallFetchAll
  | CallLoadDemo, CallLoadDemo
  | CallRefresh _ _, CallRefresh _ _
  | CallStatus, CallStatus => true
  | _, _ => false
  end.

Definition count_calls (c : call) (cs : list call) : nat :=
  length (List.filter (same_kind c) cs).

Definition sent (c : call) (s : State) : nat := count_calls c (calls s).

(** One round of polling whose answer arrives before the next tick. *)
Definition poll (timer : nat) (is_loading : bool) : list event :=
  [Tick timer; StatusSettled timer (Fulfilled is_loading)].

Fixpoint polls (timer : nat) (k : nat) : list event :=
  match k with
  | O => []
  | S k => (poll timer true ++ polls timer k)%list
  end.

End App.

(** ** More of the front end *)

(** The rest of api/client.js. *)
Module ClientMore.
Import Js Client.

Section Api.
Context {num : Type} `{JsNumber num}.
Variable VITE_API_URL : value num.
Variable fetch : string -> RequestInit -> outcome (Response num).

(** [v !== undefined] *)
Definition is_defined (v : value num) : bool :=
  match v with VUndefined => false | _ => true end.

Definition POST : RequestInit := {| method := Some "POST"; headers := None |}.

(** [request(`/markets/${marketId}`)] *)
Definition getMarket (marketId : value num) : outcome (value num) :=
  id ← ToString marketId;
  request VITE_API_URL fetch ("/markets/" +:+ id) no_options.

Record RefreshArgs : Type := {
  maxMarkets : value num;
  refresh_minVolume : value num;
  fetchOrderbooks : value num
}.

Definition refreshData_params (a : RefreshArgs) : URLSearchParams :=
  let params := [] in
  let params := append_if params "max_markets" (maxMarkets a) in
  let params := append_if params "min_volume" (refresh_minVolume a) in
  let params := if is_defined (fetchOrderbooks a)
                then append params "fetch_orderbooks" (fetchOrderbooks a)
                else params in
  params.

Definition refreshData_endpoint (a : RefreshArgs) : string :=
  with_query "/refresh" (refreshData_params a).

(** [refreshData] as it runs. *)
Definition refreshData_query (a : RefreshArgs) : outcome URLSearchParams :=
  params ← try_append_if [] "max_markets" (maxMarkets a);
  params ← try_append_if params "min_volume" (refresh_minVolume a);
  if is_defined (fetchOrderbooks a)
  then try_append params "fetch_orderbooks" (fetchOrderbooks a)
  else Resolved params.

Definition refreshData (a : RefreshArgs) : outcome (value num) :=
  params ← refreshData_query a;
  request VITE_API_URL fetch (with_query "/refresh" params) POST.

Definition loadDemoData : outcome (value num) :=
  request VITE_API_URL fetch "/load-demo" POST.

End Api.

Arguments RefreshArgs : clear implicits.

(** Occurrences of a character in a string, and a test on all of its
    characters. *)
Fixpoint count_char (c : ascii) (s : string) : nat :=
  match s with
  | EmptyString => 0
  | String a rest => (if Ascii.eqb a c then 1 else 0) + count_char c rest
  end.

Fixpoint all_chars (p : ascii -> bool) (s : string) : bool :=
  match s with
  | EmptyString => true
  | String a rest => p a && all_chars p rest
  end.

(** What the serializer lets through: the unreserved characters, the
    plus that stands for a space, and the percent of an escape. *)
Definition query_safe (a : ascii) : bool :=
  unreserved a || Ascii.eqb a "+" || Ascii.eqb a "%".

End ClientMore.

(** components/MarketCard.jsx *)
Module MarketCard.

Definition CATEGORY_COLORS : gmap string string :=
  list_to_map
    [ ("politics", "blue"); ("sports", "green"); ("crypto", "yellow");
      ("economics", "purple"); ("entertainment", "purple"); ("science", "blue");
      ("other", "gray") ].

(** [CATEGORY_COLORS[market.category] || 'gray'] *)
Definition categoryColor (category : string) : string :=
  match CATEGORY_COLORS !! category with
  | Some c => if Js.string_truthy c then c else "gray"
  | None => "gray"
  end.

End MarketCard.

(** components/PredictionCard.jsx *)
Module PredictionCard.

Record DirectionInfo : Type := { label : string; color : string }.

Definition DIRECTION_INFO : gmap string DirectionInfo :=
  list_to_map
    [ ("buy_yes", {| label := "Buy YES"; color := "green" |});
      ("buy_no", {| label := "Buy NO"; color := "red" |});
      ("hold", {| label := "Hold"; color := "gray" |}) ].

(** [DIRECTION_INFO[prediction.direction] || { label: prediction.direction, color: 'gray' }] *)
Definition directionInfo (direction : string) : DirectionInfo :=
  match DIRECTION_INFO !! direction with
  | Some info => info
  | None => {| label := direction; color := "gray" |}
  end.

(** [prediction.edge > 0], the class and the sign it selects. The edge is
    a finite JSON number, taken as an exact rational. *)
Definition edgePositive (edge : Q) : bool := negb (Qle_bool edge 0).

Definition edge_class (edge : Q) : string :=
  if edgePositive edge then "text-green" else "text-red".

Definition edge_sign (edge : Q) : string :=
  if edgePositive edge then "+" else "".

End PredictionCard.

(** hooks/index.js: [useFetch]. *)
Module Hooks.

Section UseFetch.
Variable D : Type.

(** The hook's state, with the number of calls of [fetchFn] that have not
    settled yet. *)
Record FetchState : Type := {
  data : option D;
  loading : bool;
  error : option string;
  in_flight : nat
}.

(** [useState(null)], [useState(true)], [useState(null)] *)
Definition mounted : FetchState :=
  {| data := None; loading := true; error := None; in_flight := 0 |}.

Inductive fetch_event : Type :=
| Refetch                            (* [refetch()], by the effect or the caller *)
| Settled (r : App.settled D).       (* an awaited [fetchFn()] settles *)

Definition fetch_step (s : FetchState) (e : fetch_event) : option FetchState :=
  match e with
  | Refetch =>
      Some {| data := data s; loading := true; error := None;
              in_flight := S (in_flight s) |}
  | Settled r =>
      match in_flight s with
      | O => None
      | S n =>
          Some match r with
               | App.Fulfilled result =>
                   {| data := Some result; loading := false; error := error s;
                      in_flight := n |}
               | App.Failed message =>
                   {| data := data s; loading := false; error := Some message;
                      in_flight := n |}
               end
      end
  end.

Fixpoint fetch_run (s : FetchState) (es : list fetch_event) : option FetchState :=
  match es with
  | [] => Some s
  | e :: rest => match fetch_step s e with
                 | Some s' => fetch_run s' rest
                 | None => None
                 end
  end.

(** The result of the fulfilled settlement that came last, [d] when there
    was none. *)
Fixpoint last_fulfilled (d : option D) (es : list fetch_event) : option D :=
  match es with
  | [] => d
  | Settled (App.Fulfilled result) :: rest => last_fulfilled (Some result) rest
  | _ :: rest => last_fulfilled d rest
  end.

End UseFetch.

Arguments data {D}.
Arguments loading {D}.
Arguments error {D}.
Arguments in_flight {D}.
Arguments Refetch {D}.
Arguments Settled {D}.

End Hooks.

(** ** The engine behind the API (backend/core, not part of the sources)

    The front end only consumes the engine through the API. Its data
    model and the operations below follow the specification (sections 3,
    4 and 6); field names are the ones the components read. *)

Module Engine.

Local Open Scope Q_scope.

Definition Qlt_bool (a b : Q) : bool := negb (Qle_bool b a).

Inductive Category : Type :=
| politics | sports | crypto | economics | entertainment | science | other.

#[global] Instance Category_eq_dec : EqDecision Category.
Proof. solve_decision. Defined.

(** Modelled from the spec: the Market snapshot of section 3 (the
    backend's models.py is missing). *)
Record Market : Type := {
  market_id : string;
  question : string;
  category : Category;
  current_price : Q;            (* yes side *)
  no_price : Q;                 (* supplied independently of the yes side *)
  volume_24h : Q;
  liquidity : Q;
  spread_pct : Q;
  days_until_resolution : option Z;
  edge_score : Q
}.

Inductive Direction : Type := buy_yes | buy_no | hold.

(** Modelled from the spec: the Prediction of section 3, without its
    free-text fields (models.py is missing). *)
Record Prediction : Type := {
  pred_market_id : string;
  pred_question : string;
  agent_name : string;
  direction : Direction;
  pred_current_price : Q;
  predicted_probability : Q;
  pred_confidence : Z;
  confidence_low : Q;
  confidence_high : Q;
  edge : Q
}.

(** *** Research agents and the orchestrator *)

(** What an agent's analysis estimates for a market. *)
Record Estimate : Type := {
  est_probability : Q;
  est_confidence : Z;
  est_low : Q;
  est_high : Q
}.

(** Modelled from the spec: a research agent of section 4.3 (research.py
    is missing), a name with the [can_analyze] predicate and the
    estimate its [analyze] rests on. *)
Record Agent : Type := {
  name : string;
  can_analyze : Market -> bool;
  estimate : Market -> Estimate
}.

(** Modelled from the spec: the direction rule of sections 3 and 8
    (research.py is missing). *)
Definition direction_of (deadband edge : Q) : Direction :=
  if Qlt_bool deadband edge then buy_yes
  else if Qlt_bool edge (- deadband) then buy_no
  else hold.

(** Modelled from the spec: the orchestrator of section 4.3 (research.py
    is missing): an ordered registry, a fallback agent and the deadband
    of the direction rule. *)
Record Orchestrator : Type := {
  agents : list Agent;
  fallback : Agent;
  deadband : Q
}.

(** Modelled from the spec: [analyze] of section 4.3 (research.py is
    missing): the price is echoed, the edge is the predicted probability
    minus the price, the direction follows the deadband rule. *)
Definition analyze (o : Orchestrator) (a : Agent) (m : Market) : Prediction :=
  let e := estimate a m in
  let edge := est_probability e - current_price m in
  {| pred_market_id := market_id m;
     pred_question := question m;
     agent_name := name a;
     direction := direction_of (deadband o) edge;
     pred_current_price := current_price m;
     predicted_probability := est_probability e;
     pred_confidence := est_confidence e;
     confidence_low := est_low e;
     confidence_high := est_high e;
     edge := edge |}.

(** Modelled from the spec: agent selection of section 4.3 (research.py
    is missing): the first agent of the registry that can analyze the
    market, the fallback when there is none. *)
Fixpoint first_capable (registry : list Agent) (m : Market) : option Agent :=
  match registry with
  | [] => None
  | a :: rest => if can_analyze a m then Some a else first_capable rest m
  end.

Definition select_agent (o : Orchestrator) (m : Market) : Agent :=
  match first_capable (agents o) m with
  | Some a => a
  | None => fallback o
  end.

(** Modelled from the spec: the orchestrator's batch run of section 4.3
    (research.py is missing). *)
Fixpoint analyze_markets (o : Orchestrator) (markets : list Market) : list Prediction :=
  match markets with
  | [] => []
  | m :: rest => analyze o (select_agent o m) m :: analyze_markets o rest
  end.

(** *** Market listing *)

(** The query of the market-listing endpoint; an omitted filter is
    [None], the limit defaults to 50. *)
Record MarketQuery : Type := {
  q_category : option Category;
  q_min_score : option Q;
  q_min_volume : option Q;
  q_limit : option nat;
  q_offset : option nat
}.

Definition DEFAULT_LIMIT : nat := 50.

(** Modelled from the spec: the market listing of section 6 (the API
    routes are missing): each supplied filter narrows the collection in
    turn, then offset and limit cut the page. *)
Definition list_markets (q : MarketQuery) (markets : list Market) : list Market :=
  let result := markets in
  let result := match q_category q with
                | Some c => List.filter (fun m => bool_decide (category m = c)) result
                | None => result
                end in
  let result := match q_min_score q with
                | Some s => List.filter (fun m => Qle_bool s (edge_score m)) result
                | None => result
                end in
  let result := match q_min_volume q with
                | Some v => List.filter (fun m => Qle_bool v (volume_24h m)) result
                | None => result
                end in
  firstn (default DEFAULT_LIMIT (q_limit q)) (skipn (default 0%nat (q_offset q)) result).

(** A record passes the query when it passes every supplied filter. *)
Definition passes (q : MarketQuery) (m : Market) : bool :=
  match q_category q with Some c => bool_decide (category m = c) | None => true end
  && match q_min_score q with Some s => Qle_bool s (edge_score m) | None => true end
  && match q_min_volume q with Some v => Qle_bool v (volume_24h m) | None => true end.

End Engine.

(** * Vocabulary of the statements and sample inputs *)

Section ClientTerms.
Import Js Client.
Context {num : Type} `{JsNumber num}.

(** Two filter values the client cannot tell apart: both falsy, or the
    same truthy value. *)
Definition same_filter (v v' : value num) : Prop :=
  (truthy v = false /\ truthy v' = false) \/ (truthy v = true /\ v = v').

(** [await response.json().catch(() => ({}))] *)
Definition error_body (response : Response num) : value num :=
  match json response with
  | Resolved v => v
  | Rejected _ => VObj []
  end.

(** [error.detail] for a body that is not [null]. *)
Definition detail_of (body : value num) : value num :=
  match body with
  | VObj props => default VUndefined (lookup_prop "detail" props)
  | _ => VUndefined
  end.

(** The message of the [Error] thrown for a failed request. *)
Definition failure_message (response : Response num) : string :=
  let detail := detail_of (error_body response) in
  if truthy detail then to_string detail
  else "Request failed: " +:+ pretty (status response).

Definition nullish (v : value num) : bool :=
  match v with VUndefined | VNull => true | _ => false end.

(** A filter the client can send: one that is falsy, or one that has a
    string form. *)
Definition sendable (v : value num) : bool := negb (truthy v) || converts v.

(** The query parameter a filter stands for. *)
Definition query_entry (name : string) (v : value num) : URLSearchParams :=
  if truthy v then [(name, to_string v)] else [].

(** A network that is down: [fetch] rejects every request, naming the
    method and the URL it was asked for. *)
Definition unreachable (url : string) (init : RequestInit)
  : outcome (Response num) :=
  Rejected (PlatformError (default "GET" (method init) +:+ " " +:+ url)).

End ClientTerms.

(** The filters of the dashboard's own calls, and a call with every
    filter falsy. *)
Definition no_market_filters : Client.MarketsArgs Z :=
  {| Client.category := Js.VUndefined; Client.minScore := Js.VUndefined;
     Client.minVolume := Js.VUndefined; Client.limit := Js.VUndefined;
     Client.offset := Js.VUndefined |}.

Definition falsy_market_filters : Client.MarketsArgs Z :=
  {| Client.category := Js.VStr ""; Client.minScore := Js.VNum 0%Z;
     Client.minVolume := Js.VNum 0%Z; Client.limit := Js.VNum 0%Z;
     Client.offset := Js.VNull |}.

Definition dashboard_market_filters : Client.MarketsArgs Z :=
  {| Client.category := Js.VUndefined; Client.minScore := Js.VUndefined;
     Client.minVolume := Js.VUndefined; Client.limit := Js.VNum 50%Z;
     Client.offset := Js.VUndefined |}.

(** A category that is an object with a [toString] entry of its own. *)
Definition unsendable_market_filters : Client.MarketsArgs Z :=
  {| Client.category := Js.VObj [("toString", Js.VNum 1%Z)];
     Client.minScore := Js.VUndefined; Client.minVolume := Js.VUndefined;
     Client.limit := Js.VNum 50%Z; Client.offset := Js.VUndefined |}.

Definition no_opportunity_filters : Client.OpportunitiesArgs Z :=
  {| Client.edgeType := Js.VUndefined; Client.minConfidence := Js.VUndefined;
     Client.riskLevel := Js.VUndefined; Client.opp_limit := Js.VUndefined |}.

Definition falsy_opportunity_filters : Client.OpportunitiesArgs Z :=
  {| Client.edgeType := Js.VStr ""; Client.minConfidence := Js.VNum 0%Z;
     Client.riskLevel := Js.VUndefined; Client.opp_limit := Js.VNum 0%Z |}.

Definition no_prediction_filters : Client.PredictionsArgs Z :=
  {| Client.direction := Js.VUndefined; Client.minEdge := Js.VUndefined;
     Client.pred_limit := Js.VUndefined |}.

Definition falsy_prediction_filters : Client.PredictionsArgs Z :=
  {| Client.direction := Js.VBool false; Client.minEdge := Js.VNum 0%Z;
     Client.pred_limit := Js.VNum 0%Z |}.

(** A 404 of the backend and a 200 whose body is no JSON. *)
Definition not_found_response : Client.Response Z :=
  {| Client.status := 404%N;
     Client.json := Js.Resolved (Js.VObj [("detail", Js.VStr "Market not found")]) |}.

Definition unparseable_ok_response : Client.Response Z :=
  {| Client.status := 200%N;
     Client.json := Js.Rejected (Js.PlatformError "SyntaxError") |}.

(** A failure whose [detail] is an object with a [toString] entry. *)
Definition unprintable_detail_response : Client.Response Z :=
  {| Client.status := 422%N;
     Client.json :=
       Js.Resolved (Js.VObj [("detail", Js.VObj [("toString", Js.VNum 1%Z)])]) |}.

Definition empty_detail_response : Client.Response Z :=
  {| Client.status := 500%N;
     Client.json := Js.Resolved (Js.VObj [("detail", Js.VStr "")]) |}.

Section AppTerms.
Import App.

(** Nothing loading or refreshing, nothing outstanding. *)
Definition quiescent (s : State) : Prop :=
  loading s = false /\ refreshing s = false /\ tasks s = [] /\ timers s = [].

(** A refresh whose [k] first status answers say "still loading" and
    whose next one says "done", each answer arriving before the next
    tick. *)
Definition refresh_started (timer k : nat) : list event :=
  ClickRefresh :: RefreshSettled (Fulfilled tt) :: polls timer k.

Definition refresh_completed (timer k : nat) : list event :=
  (refresh_started timer k ++ poll timer false)%list.

(** The component while it polls, after [k] answers, and once the
    answer "done" has come. *)
Definition polling (s : State) (k : nat) : State :=
  {| activeTab := activeTab s; stats := stats s; markets := markets s;
     opportunities := opportunities s; predictions := predictions s;
     loading := loading s; refreshing := true; error := None;
     tasks := []; timers := [next_timer s]; next_timer := S (next_timer s);
     calls := calls s ++ CallRefresh 100 1000 :: repeat CallStatus k |}.

Definition refetching (s : State) (k : nat) : State :=
  {| activeTab := activeTab s; stats := stats s; markets := markets s;
     opportunities := opportunities s; predictions := predictions s;
     loading := true; refreshing := false; error := None;
     tasks := [AwaitFetch]; timers := []; next_timer := S (next_timer s);
     calls := calls s ++ CallRefresh 100 1000 :: repeat CallStatus (S k)
                ++ [CallFetchAll] |}.

(** A refresh whose request fails, and one whose status request fails
    after [k] answers "still loading". *)
Definition refresh_rejected (message : string) : list event :=
  [ClickRefresh; RefreshSettled (Failed message)].

Definition status_rejected (timer k : nat) (message : string) : list event :=
  (refresh_started timer k ++ [Tick timer; StatusSettled timer (Failed message)])%list.

(** The component after either failure. *)
Definition refresh_failed (s : State) (message : string) : State :=
  {| activeTab := activeTab s; stats := stats s; markets := markets s;
     opportunities := opportunities s; predictions := predictions s;
     loading := loading s; refreshing := false; error := Some message;
     tasks := []; timers := []; next_timer := next_timer s;
     calls := calls s ++ [CallRefresh 100 1000] |}.

Definition polling_failed (s : State) (k : nat) (message : string) : State :=
  {| activeTab := activeTab s; stats := stats s; markets := markets s;
     opportunities := opportunities s; predictions := predictions s;
     loading := loading s; refreshing := false; error := Some message;
     tasks := []; timers := []; next_timer := S (next_timer s);
     calls := calls s ++ CallRefresh 100 1000 :: repeat CallStatus (S k) |}.

End AppTerms.

Section NumberTerms.
Local Open Scope float_scope.

(** The outcome of comparing two numbers. *)
Variant float_order (x y : float) : Prop :=
| order_lt : is_nan x = false -> is_nan y = false ->
    (x <? y) = true -> (y <? x) = false -> (x <=? y) = true -> (y <=? x) = false ->
    (x =? y) = false -> (y =? x) = false -> float_order x y
| order_eq : is_nan x = false -> is_nan y = false ->
    (x <? y) = false -> (y <? x) = false -> (x <=? y) = true -> (y <=? x) = true ->
    (x =? y) = true -> (y =? x) = true -> float_order x y
| order_gt : is_nan x = false -> is_nan y = false ->
    (x <? y) = false -> (y <? x) = true -> (x <=? y) = false -> (y <=? x) = true ->
    (x =? y) = false -> (y =? x) = false -> float_order x y
| order_none : is_nan x || is_nan y = true ->
    (x <? y) = false -> (y <? x) = false -> (x <=? y) = false -> (y <=? x) = false ->
    (x =? y) = false -> (y =? x) = false -> float_order x y.

End NumberTerms.

(** The dashboard after its first load. *)
Definition demo_data : App.Data :=
  {| App.statsData := Some "stats"; App.marketsData := ["m1"; "m2"];
     App.oppsData := ["m1-arbitrage"]; App.predsData := ["m1"; "m2"] |}.

Definition loaded : App.State :=
  {| App.activeTab := App.MARKETS; App.stats := Some "stats";
     App.markets := ["m1"; "m2"]; App.opportunities := ["m1-arbitrage"];
     App.predictions := ["m1"; "m2"]; App.loading := false;
     App.refreshing := false; App.error := None; App.tasks := [];
     App.timers := []; App.next_timer := 0; App.calls := [App.CallFetchAll] |}.

(** Both spinners on: the first load failed, a refresh was started and
    the button of the empty markets tab was clicked before the refresh
    request settled. *)
Definition refreshing_and_loading : App.State :=
  {| App.activeTab := App.MARKETS; App.stats := None; App.markets := [];
     App.opportunities := []; App.predictions := []; App.loading := true;
     App.refreshing := true; App.error := None;
     App.tasks := [App.AwaitRefresh; App.AwaitDemo]; App.timers := [];
     App.next_timer := 0;
     App.calls := [App.CallFetchAll; App.CallRefresh 100 1000; App.CallLoadDemo] |}.

(** A registry of two agents with a fallback, and a batch of three
    markets. *)
Definition constant_estimate (p : Q) (c : Z) (lo hi : Q) : Engine.Estimate :=
  {| Engine.est_probability := p; Engine.est_confidence := c;
     Engine.est_low := lo; Engine.est_high := hi |}.

Definition PoliticsAgent : Engine.Agent :=
  {| Engine.name := "PoliticsAgent";
     Engine.can_analyze := fun m => bool_decide (Engine.category m = Engine.politics);
     Engine.estimate := fun _ => constant_estimate 0.62 70 0.55 0.70 |}.

Definition CryptoAgent : Engine.Agent :=
  {| Engine.name := "CryptoAgent";
     Engine.can_analyze := fun m => bool_decide (Engine.category m = Engine.crypto);
     Engine.estimate := fun _ => constant_estimate 0.30 55 0.20 0.45 |}.

Definition GeneralAgent : Engine.Agent :=
  {| Engine.name := "GeneralAgent";
     Engine.can_analyze := fun _ => true;
     Engine.estimate := fun m => constant_estimate (Engine.current_price m) 40
                                   (Engine.current_price m) (Engine.current_price m) |}.

Definition demo_orchestrator : Engine.Orchestrator :=
  {| Engine.agents := [PoliticsAgent; CryptoAgent];
     Engine.fallback := GeneralAgent;
     Engine.deadband := 0.05 |}.

Definition demo_market (mid : string) (c : Engine.Category) (yes no score volume : Q)
  : Engine.Market :=
  {| Engine.market_id := mid; Engine.question := "Will it happen?";
     Engine.category := c; Engine.current_price := yes; Engine.no_price := no;
     Engine.volume_24h := volume; Engine.liquidity := 5000; Engine.spread_pct := 1.5;
     Engine.days_until_resolution := Some 30%Z; Engine.edge_score := score |}.

Definition demo_markets : list Engine.Market :=
  [ demo_market "m1" Engine.politics 0.50 0.50 80 12000;
    demo_market "m2" Engine.crypto 0.60 0.55 65 3000;
    demo_market "m3" Engine.sports 0.60 0.40 20 900 ].

(** Fifty markets and the dashboard's query for the first ten. *)
Definition fifty_markets : list Engine.Market :=
  List.map (fun i => demo_market (pretty i) Engine.other 0.5 0.5
                       (inject_Z (Z.of_nat i)) 1000)
    (seq 0 50).

Definition first_ten : Engine.MarketQuery :=
  {| Engine.q_category := None; Engine.q_min_score := None;
     Engine.q_min_volume := None; Engine.q_limit := Some 10%nat;
     Engine.q_offset := None |}.

(** * Properties *)

(** ** The API client *)

Section ClientFacts.
Import Js Client.
Context {num : Type} `{JsNumber num}.

Lemma bind_Resolved {A B : Type} (a : A) (f : A -> outcome B) :
  (Resolved a ≫= f) = f a.
Proof. reflexivity. Qed.

Lemma bind_Rejected {A B : Type} (e : exn) (f : A -> outcome B) :
  (Rejected e ≫= f) = Rejected e.
Proof. reflexivity. Qed.

Lemma ToString_converts (v : value num) :
  converts v = true -> ToString v = Resolved (to_string v).
Proof. intros Hv. unfold ToString. now rewrite Hv. Qed.

Lemma ToString_throws (v : value num) :
  converts v = false ->
  ToString v = Rejected (TypeError "Cannot convert object to primitive value").
Proof. intros Hv. unfold ToString. now rewrite Hv. Qed.

Lemma falsy_converts (v : value num) : truthy v = false -> converts v = true.
Proof. destruct v; simpl; intros Hv; try reflexivity; discriminate. Qed.

Lemma append_if_truthy params name (v : value num) :
  truthy v = true -> append_if params name v = (params ++ [(name, to_string v)])%list.
Proof. intros Hv. unfold append_if, append. now rewrite Hv. Qed.

Lemma append_if_falsy params name (v : value num) :
  truthy v = false -> append_if params name v = params.
Proof. intros Hv. unfold append_if. now rewrite Hv. Qed.

Lemma append_if_same params name (v v' : value num) :
  same_filter v v' -> append_if params name v = append_if params name v'.
Proof.
  intros [[Hv Hv'] | [Hv ->]]; [| reflexivity].
  now rewrite !append_if_falsy.
Qed.

Lemma in_append_if params name (v : value num) key s :
  In (key, s) (append_if params name v) <->
  In (key, s) params \/ (key = name /\ s = to_string v /\ truthy v = true).
Proof.
  unfold append_if, append. destruct (truthy v) eqn:Hv.
  - rewrite in_app_iff. simpl. split.
    + intros [Hin | [Heq | []]]; [now left |]. inversion Heq; subst. now right.
    + intros [Hin | (-> & -> & _)]; [now left |]. right. now left.
  - split; [now left |]. intros [Hin | (_ & _ & Hf)]; [assumption | discriminate].
Qed.

Lemma append_if_entry params name (v : value num) :
  append_if params name v = (params ++ query_entry name v)%list.
Proof.
  unfold append_if, append, query_entry.
  destruct (truthy v); [reflexivity | now rewrite app_nil_r].
Qed.

Lemma in_query_entry name (v : value num) key s :
  In (key, s) (query_entry name v) <->
  key = name /\ s = to_string v /\ truthy v = true.
Proof.
  unfold query_entry. destruct (truthy v); simpl.
  - split.
    + intros [Heq | []]. inversion Heq. auto.
    + intros (-> & -> & _). now left.
  - split; [intros [] | intros (_ & _ & Hf); discriminate].
Qed.

Lemma try_append_if_sendable params name (v : value num) :
  sendable v = true ->
  try_append_if params name v = Resolved (params ++ query_entry name v)%list.
Proof.
  unfold sendable, try_append_if, try_append, query_entry.
  destruct (truthy v); simpl; intros Hv.
  - now rewrite (ToString_converts _ Hv).
  - now rewrite app_nil_r.
Qed.

Lemma try_append_if_unsendable params name (v : value num) :
  sendable v = false ->
  try_append_if params name v
  = Rejected (TypeError "Cannot convert object to primitive value").
Proof.
  unfold sendable, try_append_if, try_append.
  destruct (truthy v); simpl; intros Hv; [| discriminate].
  now rewrite (ToString_throws _ Hv).
Qed.

Lemma try_append_if_same params name (v v' : value num) :
  same_filter v v' -> try_append_if params name v = try_append_if params name v'.
Proof.
  intros [[Hv Hv'] | [Hv ->]]; [| reflexivity].
  unfold try_append_if. now rewrite Hv, Hv'.
Qed.

Lemma try_append_if_resolved params name (v : value num) params' :
  try_append_if params name v = Resolved params' ->
  params' = append_if params name v.
Proof.
  destruct (sendable v) eqn:Hv.
  - rewrite (try_append_if_sendable _ _ _ Hv), append_if_entry. congruence.
  - rewrite (try_append_if_unsendable _ _ _ Hv). discriminate.
Qed.

(** Whenever a call gets as far as its request, the parameters it built
    are the ones of the builder without failure. *)
Lemma getMarkets_query_resolved (a : MarketsArgs num) params :
  getMarkets_query a = Resolved params -> params = getMarkets_params a.
Proof.
  unfold getMarkets_query, getMarkets_params.
  destruct (try_append_if [] "category" (category a)) as [p1 | e] eqn:H1;
    [rewrite bind_Resolved | discriminate].
  apply try_append_if_resolved in H1 as ->.
  destruct (try_append_if _ "min_score" (minScore a)) as [p2 | e] eqn:H2;
    [rewrite bind_Resolved | discriminate].
  apply try_append_if_resolved in H2 as ->.
  destruct (try_append_if _ "min_volume" (minVolume a)) as [p3 | e] eqn:H3;
    [rewrite bind_Resolved | discriminate].
  apply try_append_if_resolved in H3 as ->.
  destruct (try_append_if _ "limit" (limit a)) as [p4 | e] eqn:H4;
    [rewrite bind_Resolved | discriminate].
  apply try_append_if_resolved in H4 as ->.
  intros H5. now apply try_append_if_resolved in H5.
Qed.

Lemma getOpportunities_query_resolved (a : OpportunitiesArgs num) params :
  getOpportunities_query a = Resolved params -> params = getOpportunities_params a.
Proof.
  unfold getOpportunities_query, getOpportunities_params.
  destruct (try_append_if [] "edge_type" (edgeType a)) as [p1 | e] eqn:H1;
    [rewrite bind_Resolved | discriminate].
  apply try_append_if_resolved in H1 as ->.
  destruct (try_append_if _ "min_confidence" (minConfidence a)) as [p2 | e] eqn:H2;
    [rewrite bind_Resolved | discriminate].
  apply try_append_if_resolved in H2 as ->.
  destruct (try_append_if _ "risk_level" (riskLevel a)) as [p3 | e] eqn:H3;
    [rewrite bind_Resolved | discriminate].
  apply try_append_if_resolved in H3 as ->.
  intros H4. now apply try_append_if_resolved in H4.
Qed.

Lemma getPredictions_query_resolved (a : PredictionsArgs num) params :
  getPredictions_query a = Resolved params -> params = getPredictions_params a.
Proof.
  unfold getPredictions_query, getPredictions_params.
  destruct (try_append_if [] "direction" (direction a)) as [p1 | e] eqn:H1;
    [rewrite bind_Resolved | discriminate].
  apply try_append_if_resolved in H1 as ->.
  destruct (try_append_if _ "min_edge" (minEdge a)) as [p2 | e] eqn:H2;
    [rewrite bind_Resolved | discriminate].
  apply try_append_if_resolved in H2 as ->.
  intros H3. now apply try_append_if_resolved in H3.
Qed.

Lemma same_filter_undefined (v : value num) :
  truthy v = false -> same_filter v VUndefined.
Proof. intros Hv. left. split; [assumption | reflexivity]. Qed.

Lemma same_filter_refl (v : value num) : same_filter v v.
Proof. destruct (truthy v) eqn:Hv; [right | left]; auto. Qed.

Lemma request_unreachable (base : value num) (endpoint : string)
    (options : RequestInit) :
  converts (API_BASE base) = true ->
  request base unreachable endpoint options
  = Rejected (PlatformError (default "GET" (method options) +:+ " "
                             +:+ to_string (API_BASE base) +:+ endpoint)).
Proof.
  intros Hb. unfold request. rewrite (ToString_converts _ Hb). reflexivity.
Qed.

Ltac in_params :=
  repeat rewrite in_append_if; simpl In;
  intuition (subst; auto; try discriminate; try congruence).

Ltac in_entries :=
  repeat rewrite in_app_iff; repeat rewrite in_query_entry; tauto.

Ltac sendable_step v :=
  let Hv := fresh "Hv" in
  destruct (sendable v) eqn:Hv;
  [ rewrite (try_append_if_sendable _ _ _ Hv), ?bind_Resolved
  | rewrite (try_append_if_unsendable _ _ _ Hv); reflexivity ].

(** C9, as the code has it: in [getMarkets], [getOpportunities] and
    [getPredictions], when every truthy filter has a string form, the
    query holds, in the order of the code, one parameter for each filter
    that is truthy, with the filter's string form as its value, and none
    for a filter that is falsy; the URL requested is the API base, the
    path and, when a parameter was appended, [?] and the serialised
    parameters. A truthy filter with no string form makes the call throw
    before anything is requested. Two calls whose filters differ only in
    falsy values (0, the empty string, [undefined]) are the same
    request. *)
Theorem query_parameter_iff_truthy (base : value num) :
  (forall a : MarketsArgs num,
      let params := (query_entry "category" (category a)
                     ++ query_entry "min_score" (minScore a)
                     ++ query_entry "min_volume" (minVolume a)
                     ++ query_entry "limit" (limit a)
                     ++ query_entry "offset" (offset a))%list in
      let query := params_toString params in
      getMarkets_params a = params
      /\ (forall key s,
            In (key, s) params <->
            (key = "category" /\ s = to_string (category a) /\ truthy (category a) = true) \/
            (key = "min_score" /\ s = to_string (minScore a) /\ truthy (minScore a) = true) \/
            (key = "min_volume" /\ s = to_string (minVolume a)
             /\ truthy (minVolume a) = true) \/
            (key = "limit" /\ s = to_string (limit a) /\ truthy (limit a) = true) \/
            (key = "offset" /\ s = to_string (offset a) /\ truthy (offset a) = true))
      /\ (sendable (category a) && sendable (minScore a) && sendable (minVolume a)
          && sendable (limit a) && sendable (offset a) = true ->
            getMarkets_query a = Resolved params
            /\ (forall fetch,
                  getMarkets base fetch a
                  = request base fetch (with_query "/markets" params) no_options)
            /\ (converts (API_BASE base) = true ->
                  getMarkets base unreachable a
                  = Rejected (PlatformError
                      ("GET " +:+ to_string (API_BASE base) +:+ "/markets"
                       +:+ (if string_truthy query then "?" +:+ query else "")))))
      /\ (sendable (category a) && sendable (minScore a) && sendable (minVolume a)
          && sendable (limit a) && sendable (offset a) = false ->
            forall fetch,
              getMarkets base fetch a
              = Rejected (TypeError "Cannot convert object to primitive value"))) /\
  (forall a : OpportunitiesArgs num,
      let params := (query_entry "edge_type" (edgeType a)
                     ++ query_entry "min_confidence" (minConfidence a)
                     ++ query_entry "risk_level" (riskLevel a)
                     ++ query_entry "limit" (opp_limit a))%list in
      let query := params_toString params in
      getOpportunities_params a = params
      /\ (forall key s,
            In (key, s) params <->
            (key = "edge_type" /\ s = to_string (edgeType a) /\ truthy (edgeType a) = true) \/
            (key = "min_confidence" /\ s = to_string (minConfidence a)
             /\ truthy (minConfidence a) = true) \/
            (key = "risk_level" /\ s = to_string (riskLevel a)
             /\ truthy (riskLevel a) = true) \/
            (key = "limit" /\ s = to_string (opp_limit a) /\ truthy (opp_limit a) = true))
      /\ (sendable (edgeType a) && sendable (minConfidence a) && sendable (riskLevel a)
          && sendable (opp_limit a) = true ->
            getOpportunities_query a = Resolved params
            /\ (forall fetch,
                  getOpportunities base fetch a
                  = request base fetch (with_query "/opportunities" params) no_options)
            /\ (converts (API_BASE base) = true ->
                  getOpportunities base unreachable a
                  = Rejected (PlatformError
                      ("GET " +:+ to_string (API_BASE base) +:+ "/opportunities"
                       +:+ (if string_truthy query then "?" +:+ query else "")))))
      /\ (sendable (edgeType a) && sendable (minConfidence a) && sendable (riskLevel a)
          && sendable (opp_limit a) = false ->
            forall fetch,
              getOpportunities base fetch a
              = Rejected (TypeError "Cannot convert object to primitive value"))) /\
  (forall a : PredictionsArgs num,
      let params := (query_entry "direction" (direction a)
                     ++ query_entry "min_edge" (minEdge a)
                     ++ query_entry "limit" (pred_limit a))%list in
      let query := params_toString params in
      getPredictions_params a = params
      /\ (forall key s,
            In (key, s) params <->
            (key = "direction" /\ s = to_string (direction a)
             /\ truthy (direction a) = true) \/
            (key = "min_edge" /\ s = to_string (minEdge a) /\ truthy (minEdge a) = true) \/
            (key = "limit" /\ s = to_string (pred_limit a) /\ truthy (pred_limit a) = true))
      /\ (sendable (direction a) && sendable (minEdge a) && sendable (pred_limit a) = true ->
            getPredictions_query a = Resolved params
            /\ (forall fetch,
                  getPredictions base fetch a
                  = request base fetch (with_query "/predictions" params) no_options)
            /\ (converts (API_BASE base) = true ->
                  getPredictions base unreachable a
                  = Rejected (PlatformError
                      ("GET " +:+ to_string (API_BASE base) +:+ "/predictions"
                       +:+ (if string_truthy query then "?" +:+ query else "")))))
      /\ (sendable (direction a) && sendable (minEdge a) && sendable (pred_limit a) = false ->
            forall fetch,
              getPredictions base fetch a
              = Rejected (TypeError "Cannot convert object to primitive value"))) /\
  (forall a a' : MarketsArgs num,
      same_filter (category a) (category a') ->
      same_filter (minScore a) (minScore a') ->
      same_filter (minVolume a) (minVolume a') ->
      same_filter (limit a) (limit a') ->
      same_filter (offset a) (offset a') ->
      request_url base (getMarkets_endpoint a) = request_url base (getMarkets_endpoint a')
      /\ forall fetch, getMarkets base fetch a = getMarkets base fetch a') /\
  (forall a a' : OpportunitiesArgs num,
      same_filter (edgeType a) (edgeType a') ->
      same_filter (minConfidence a) (minConfidence a') ->
      same_filter (riskLevel a) (riskLevel a') ->
      same_filter (opp_limit a) (opp_limit a') ->
      request_url base (getOpportunities_endpoint a)
      = request_url base (getOpportunities_endpoint a')
      /\ forall fetch, getOpportunities base fetch a = getOpportunities base fetch a') /\
  (forall a a' : PredictionsArgs num,
      same_filter (direction a) (direction a') ->
      same_filter (minEdge a) (minEdge a') ->
      same_filter (pred_limit a) (pred_limit a') ->
      request_url base (getPredictions_endpoint a)
      = request_url base (getPredictions_endpoint a')
      /\ forall fetch, getPredictions base fetch a = getPredictions base fetch a') /\
  (forall v : value num, truthy v = false -> same_filter v VUndefined) /\
  (forall n : num, number_truthy n = false -> same_filter (VNum n) VUndefined) /\
  same_filter (VStr "" : value num) VUndefined.
Proof.
  assert (Hfalsy : forall v : value num, truthy v = false -> same_filter v VUndefined)
    by apply same_filter_undefined.
  split; [| split; [| split; [| split; [| split; [| split; [| split; [| split]]]]]]];
    [ | | | | | | exact Hfalsy | intros n Hn; now apply Hfalsy
    | now apply Hfalsy ].
  - intros a params query. subst query.
    assert (Hq : sendable (category a) && sendable (minScore a)
                 && sendable (minVolume a) && sendable (limit a)
                 && sendable (offset a) = true ->
                 getMarkets_query a = Resolved params).
    { rewrite !andb_true_iff. intros ((((H1 & H2) & H3) & H4) & H5).
      unfold getMarkets_query.
      rewrite (try_append_if_sendable _ _ _ H1), bind_Resolved,
        (try_append_if_sendable _ _ _ H2), bind_Resolved,
        (try_append_if_sendable _ _ _ H3), bind_Resolved,
        (try_append_if_sendable _ _ _ H4), bind_Resolved,
        (try_append_if_sendable _ _ _ H5).
      subst params. now rewrite app_nil_l, <- !app_assoc. }
    split; [| split; [| split; [| ]]].
    + unfold getMarkets_params. rewrite !append_if_entry.
      subst params. now rewrite app_nil_l, <- !app_assoc.
    + intros key s. subst params. in_entries.
    + intros Hs. specialize (Hq Hs). split; [exact Hq |]. split.
      * intros fetch. unfold getMarkets. now rewrite Hq, bind_Resolved.
      * intros Hb. unfold getMarkets. rewrite Hq, bind_Resolved.
        rewrite (request_unreachable _ _ _ Hb). reflexivity.
    + intros Hs fetch. unfold getMarkets, getMarkets_query.
      sendable_step (category a). sendable_step (minScore a).
      sendable_step (minVolume a). sendable_step (limit a).
      sendable_step (offset a). discriminate Hs.
  - intros a params query. subst query.
    assert (Hq : sendable (edgeType a) && sendable (minConfidence a)
                 && sendable (riskLevel a) && sendable (opp_limit a) = true ->
                 getOpportunities_query a = Resolved params).
    { rewrite !andb_true_iff. intros (((H1 & H2) & H3) & H4).
      unfold getOpportunities_query.
      rewrite (try_append_if_sendable _ _ _ H1), bind_Resolved,
        (try_append_if_sendable _ _ _ H2), bind_Resolved,
        (try_append_if_sendable _ _ _ H3), bind_Resolved,
        (try_append_if_sendable _ _ _ H4).
      subst params. now rewrite app_nil_l, <- !app_assoc. }
    split; [| split; [| split; [| ]]].
    + unfold getOpportunities_params. rewrite !append_if_entry.
      subst params. now rewrite app_nil_l, <- !app_assoc.
    + intros key s. subst params. in_entries.
    + intros Hs. specialize (Hq Hs). split; [exact Hq |]. split.
      * intros fetch. unfold getOpportunities. now rewrite Hq, bind_Resolved.
      * intros Hb. unfold getOpportunities. rewrite Hq, bind_Resolved.
        rewrite (request_unreachable _ _ _ Hb). reflexivity.
    + intros Hs fetch. unfold getOpportunities, getOpportunities_query.
      sendable_step (edgeType a). sendable_step (minConfidence a).
      sendable_step (riskLevel a). sendable_step (opp_limit a).
      discriminate Hs.
  - intros a params query. subst query.
    assert (Hq : sendable (direction a) && sendable (minEdge a)
                 && sendable (pred_limit a) = true ->
                 getPredictions_query a = Resolved params).
    { rewrite !andb_true_iff. intros ((H1 & H2) & H3).
      unfold getPredictions_query.
      rewrite (try_append_if_sendable _ _ _ H1), bind_Resolved,
        (try_append_if_sendable _ _ _ H2), bind_Resolved,
        (try_append_if_sendable _ _ _ H3).
      subst params. now rewrite app_nil_l, <- !app_assoc. }
    split; [| split; [| split; [| ]]].
    + unfold getPredictions_params. rewrite !append_if_entry.
      subst params. now rewrite app_nil_l, <- !app_assoc.
    + intros key s. subst params. in_entries.
    + intros Hs. specialize (Hq Hs). split; [exact Hq |]. split.
      * intros fetch. unfold getPredictions. now rewrite Hq, bind_Resolved.
      * intros Hb. unfold getPredictions. rewrite Hq, bind_Resolved.
        rewrite (request_unreachable _ _ _ Hb). reflexivity.
    + intros Hs fetch. unfold getPredictions, getPredictions_query.
      sendable_step (direction a). sendable_step (minEdge a).
      sendable_step (pred_limit a). discriminate Hs.
  - intros a a' H1 H2 H3 H4 H5. split.
    + unfold getMarkets_endpoint, getMarkets_params. do 2 f_equal.
      rewrite (append_if_same _ _ _ _ H1), (append_if_same _ _ _ _ H2),
        (append_if_same _ _ _ _ H3), (append_if_same _ _ _ _ H4),
        (append_if_same _ _ _ _ H5).
      reflexivity.
    + intros fetch. unfold getMarkets, getMarkets_query.
      rewrite (try_append_if_same _ _ _ _ H1).
      destruct (try_append_if [] "category" (category a')) as [p1 | e];
        [rewrite !bind_Resolved | reflexivity].
      rewrite (try_append_if_same _ _ _ _ H2).
      destruct (try_append_if p1 "min_score" (minScore a')) as [p2 | e];
        [rewrite !bind_Resolved | reflexivity].
      rewrite (try_append_if_same _ _ _ _ H3).
      destruct (try_append_if p2 "min_volume" (minVolume a')) as [p3 | e];
        [rewrite !bind_Resolved | reflexivity].
      rewrite (try_append_if_same _ _ _ _ H4).
      destruct (try_append_if p3 "limit" (limit a')) as [p4 | e];
        [rewrite !bind_Resolved | reflexivity].
      now rewrite (try_append_if_same _ _ _ _ H5).
  - intros a a' H1 H2 H3 H4. split.
    + unfold getOpportunities_endpoint, getOpportunities_params. do 2 f_equal.
      rewrite (append_if_same _ _ _ _ H1), (append_if_same _ _ _ _ H2),
        (append_if_same _ _ _ _ H3), (append_if_same _ _ _ _ H4).
      reflexivity.
    + intros fetch. unfold getOpportunities, getOpportunities_query.
      rewrite (try_append_if_same _ _ _ _ H1).
      destruct (try_append_if [] "edge_type" (edgeType a')) as [p1 | e];
        [rewrite !bind_Resolved | reflexivity].
      rewrite (try_append_if_same _ _ _ _ H2).
      destruct (try_append_if p1 "min_confidence" (minConfidence a')) as [p2 | e];
        [rewrite !bind_Resolved | reflexivity].
      rewrite (try_append_if_same _ _ _ _ H3).
      destruct (try_append_if p2 "risk_level" (riskLevel a')) as [p3 | e];
        [rewrite !bind_Resolved | reflexivity].
      now rewrite (try_append_if_same _ _ _ _ H4).
  - intros a a' H1 H2 H3. split.
    + unfold getPredictions_endpoint, getPredictions_params. do 2 f_equal.
      rewrite (append_if_same _ _ _ _ H1), (append_if_same _ _ _ _ H2),
        (append_if_same _ _ _ _ H3).
      reflexivity.
    + intros fetch. unfold getPredictions, getPredictions_query.
      rewrite (try_append_if_same _ _ _ _ H1).
      destruct (try_append_if [] "direction" (direction a')) as [p1 | e];
        [rewrite !bind_Resolved | reflexivity].
      rewrite (try_append_if_same _ _ _ _ H2).
      destruct (try_append_if p1 "min_edge" (minEdge a')) as [p2 | e];
        [rewrite !bind_Resolved | reflexivity].
      now rewrite (try_append_if_same _ _ _ _ H3).
Qed.

End ClientFacts.

(** The dashboard's own call asks for [/api/markets?limit=50]; a call
    with min_score=0, limit=0 and the like is the request of a call with
    no filter at all, for [/api/markets]. *)
Lemma query_parameter_iff_truthy_witness :
  Client.getMarkets Js.VUndefined unreachable dashboard_market_filters
  = Js.Rejected (Js.PlatformError "GET /api/markets?limit=50")
  /\ Client.getMarkets Js.VUndefined unreachable falsy_market_filters
     = Js.Rejected (Js.PlatformError "GET /api/markets")
  /\ (forall fetch,
        Client.getMarkets Js.VUndefined fetch falsy_market_filters
        = Client.getMarkets Js.VUndefined fetch no_market_filters)
  /\ (forall fetch,
        Client.getOpportunities Js.VUndefined fetch falsy_opportunity_filters
        = Client.getOpportunities Js.VUndefined fetch no_opportunity_filters)
  /\ (forall fetch,
        Client.getPredictions Js.VUndefined fetch falsy_prediction_filters
        = Client.getPredictions Js.VUndefined fetch no_prediction_filters)
  /\ (forall fetch,
        Client.getMarkets Js.VUndefined fetch unsendable_market_filters
        = Js.Rejected (Js.TypeError "Cannot convert object to primitive value")).
Proof.
  destruct (query_parameter_iff_truthy (num := Z) Js.VUndefined)
    as (Hm & _ & _ & Hms & Hos & Hps & _).
  split; [| split; [| split; [| split; [| split]]]].
  - destruct (Hm dashboard_market_filters) as (_ & _ & Hsend & _).
    destruct (Hsend eq_refl) as (_ & _ & Hurl). exact (Hurl eq_refl).
  - destruct (Hm falsy_market_filters) as (_ & _ & Hsend & _).
    destruct (Hsend eq_refl) as (_ & _ & Hurl). exact (Hurl eq_refl).
  - apply Hms; left; split; reflexivity.
  - apply Hos; left; split; reflexivity.
  - apply Hps; left; split; reflexivity.
  - destruct (Hm unsendable_market_filters) as (_ & _ & _ & Hthrow).
    exact (Hthrow eq_refl).
Defined.

(** C9 as stated fails for a filter that is truthy and has no string
    form: [params.append] throws on it, so neither its parameter nor the
    one of a truthy filter after it is appended, and nothing is
    requested, whether the network is down or answers. *)
Lemma truthy_filter_not_appended :
  Js.truthy (Client.category unsendable_market_filters) = true
  /\ Js.truthy (Client.limit unsendable_market_filters) = true
  /\ Client.getMarkets_query unsendable_market_filters
     = Js.Rejected (Js.TypeError "Cannot convert object to primitive value")
  /\ Client.getMarkets Js.VUndefined unreachable unsendable_market_filters
     = Js.Rejected (Js.TypeError "Cannot convert object to primitive value")
  /\ Client.getMarkets Js.VUndefined (fun _ _ => Js.Resolved not_found_response)
       unsendable_market_filters
     = Js.Rejected (Js.TypeError "Cannot convert object to primitive value").
Proof. repeat split. Qed.

Example getMarkets_dashboard_url :
  Client.request_url (Js.VUndefined : Js.value Z)
    (Client.getMarkets_endpoint dashboard_market_filters)
  = "/api/markets?limit=50".
Proof. reflexivity. Qed.

Example getMarkets_falsy_url :
  Client.request_url Js.VUndefined (Client.getMarkets_endpoint falsy_market_filters)
  = "/api/markets".
Proof. reflexivity. Qed.

Section RequestFacts.
Import Js Client.
Context {num : Type} `{JsNumber num}.

Lemma get_detail (body : value num) :
  nullish body = false -> get body "detail" = Resolved (detail_of body).
Proof. destruct body; simpl; intros Hb; try discriminate; reflexivity. Qed.

Lemma request_not_ok (base : value num)
    (fetch : string -> RequestInit -> outcome (Response num))
    (endpoint : string) (options : RequestInit) (response : Response num) :
  converts (API_BASE base) = true ->
  fetch (request_url base endpoint) (fetch_init options) = Resolved response ->
  ok response = false ->
  request base fetch endpoint options
  = (detail ← get (error_body response) "detail";
     message ← ToString
       (or_else detail (VStr ("Request failed: " +:+ pretty (status response))));
     Rejected (Error message)).
Proof.
  intros Hb Hfetch Hok. unfold request.
  rewrite (ToString_converts _ Hb), bind_Resolved.
  fold (request_url base endpoint). rewrite Hfetch, bind_Resolved, Hok.
  reflexivity.
Qed.

Lemma request_message (base : value num)
    (fetch : string -> RequestInit -> outcome (Response num))
    (endpoint : string) (options : RequestInit) (response : Response num) :
  converts (API_BASE base) = true ->
  fetch (request_url base endpoint) (fetch_init options) = Resolved response ->
  ok response = false -> nullish (error_body response) = false ->
  converts (detail_of (error_body response)) = true ->
  request base fetch endpoint options = Rejected (Error (failure_message response)).
Proof.
  intros Hb Hfetch Hok Hbody Hd.
  rewrite (request_not_ok _ _ _ _ _ Hb Hfetch Hok), (get_detail _ Hbody), bind_Resolved.
  unfold failure_message, or_else.
  destruct (truthy (detail_of (error_body response))).
  - now rewrite (ToString_converts _ Hd).
  - reflexivity.
Qed.

Lemma request_message_throws (base : value num)
    (fetch : string -> RequestInit -> outcome (Response num))
    (endpoint : string) (options : RequestInit) (response : Response num) :
  converts (API_BASE base) = true ->
  fetch (request_url base endpoint) (fetch_init options) = Resolved response ->
  ok response = false -> nullish (error_body response) = false ->
  converts (detail_of (error_body response)) = false ->
  request base fetch endpoint options
  = Rejected (TypeError "Cannot convert object to primitive value").
Proof.
  intros Hb Hfetch Hok Hbody Hd.
  rewrite (request_not_ok _ _ _ _ _ Hb Hfetch Hok), (get_detail _ Hbody), bind_Resolved.
  unfold or_else.
  destruct (truthy (detail_of (error_body response))) eqn:Ht.
  - now rewrite (ToString_throws _ Hd).
  - rewrite (falsy_converts _ Ht) in Hd. discriminate.
Qed.

(** C7, as the code has it: when [fetch] answers with a response that is
    not ok and whose body is not JSON [null], [request] throws an [Error]
    whose message is the body's [detail] when that is truthy (as a
    string; the body counts as empty when it does not parse) and
    [Request failed: <status>] otherwise, unless the [detail] has no
    string form, when it throws the [TypeError] of the conversion; when
    the response is ok, [request] settles as [response.json()] does, so
    it returns the parsed body whenever the body parses. *)
Theorem request_settles (base : value num)
    (fetch : string -> RequestInit -> outcome (Response num))
    (endpoint : string) (options : RequestInit) (response : Response num) :
  converts (API_BASE base) = true ->
  fetch (request_url base endpoint) (fetch_init options) = Resolved response ->
  (ok response = false -> nullish (error_body response) = false ->
     (converts (detail_of (error_body response)) = true ->
        request base fetch endpoint options = Rejected (Error (failure_message response)))
     /\ (converts (detail_of (error_body response)) = false ->
           request base fetch endpoint options
           = Rejected (TypeError "Cannot convert object to primitive value"))
     /\ (forall s, detail_of (error_body response) = VStr s -> s <> "" ->
           failure_message response = s
           /\ request base fetch endpoint options = Rejected (Error s))
     /\ (truthy (detail_of (error_body response)) = false ->
           failure_message response = "Request failed: " +:+ pretty (status response)
           /\ request base fetch endpoint options
              = Rejected (Error ("Request failed: " +:+ pretty (status response)))))
  /\ (ok response = true ->
        request base fetch endpoint options = json response
        /\ forall body, json response = Resolved body ->
             request base fetch endpoint options = Resolved body).
Proof.
  intros Hb Hfetch. split.
  - intros Hok Hbody.
    pose proof (request_message _ _ _ _ _ Hb Hfetch Hok Hbody) as Hmsg.
    split; [exact Hmsg |]. split; [| split].
    + now apply request_message_throws.
    + intros s Hs Hne.
      assert (Hm : failure_message response = s).
      { unfold failure_message. rewrite Hs. cbn.
        destruct s; [congruence | reflexivity]. }
      split; [exact Hm |]. rewrite <- Hm. apply Hmsg. now rewrite Hs.
    + intros Hf.
      assert (Hm : failure_message response
                   = "Request failed: " +:+ pretty (status response)).
      { unfold failure_message. now rewrite Hf. }
      split; [exact Hm |]. rewrite <- Hm. apply Hmsg. now apply falsy_converts.
  - intros Hok.
    assert (Hreq : request base fetch endpoint options = json response).
    { unfold request. rewrite (ToString_converts _ Hb), bind_Resolved.
      fold (request_url base endpoint). now rewrite Hfetch, bind_Resolved, Hok. }
    split; [assumption |]. intros body Hb'. now rewrite Hreq.
Qed.

End RequestFacts.

Lemma request_settles_witness :
  Client.request Js.VUndefined (fun _ _ => Js.Resolved not_found_response)
    "/markets/abc" Client.no_options
  = Js.Rejected (Js.Error "Market not found")
  /\ Client.request Js.VUndefined (fun _ _ => Js.Resolved unprintable_detail_response)
       "/markets/abc" Client.no_options
     = Js.Rejected (Js.TypeError "Cannot convert object to primitive value").
Proof.
  split.
  - destruct (request_settles (num := Z) Js.VUndefined
                (fun _ _ => Js.Resolved not_found_response)
                "/markets/abc" Client.no_options not_found_response eq_refl eq_refl)
      as [Hfail _].
    destruct (Hfail eq_refl eq_refl) as [Hreq _].
    exact (Hreq eq_refl).
  - destruct (request_settles (num := Z) Js.VUndefined
                (fun _ _ => Js.Resolved unprintable_detail_response)
                "/markets/abc" Client.no_options unprintable_detail_response
                eq_refl eq_refl)
      as [Hfail _].
    destruct (Hfail eq_refl eq_refl) as (_ & Hthrow & _).
    exact (Hthrow eq_refl).
Defined.

(** C7 as stated fails for an ok response whose body does not parse:
    [request] throws what [response.json()] rejected with. *)
Lemma request_ok_response_throws :
  Client.ok unparseable_ok_response = true
  /\ Client.request Js.VUndefined (fun _ _ => Js.Resolved unparseable_ok_response)
       "/stats" Client.no_options
     = Js.Rejected (Js.PlatformError "SyntaxError")
  /\ ~ exists body,
         Client.request Js.VUndefined (fun _ _ => Js.Resolved unparseable_ok_response)
           "/stats" Client.no_options
         = Js.Resolved body.
Proof.
  split; [reflexivity |]. split; [reflexivity |].
  intros [body Hb]. discriminate Hb.
Qed.

(** A [detail] that is present and has no string form is not carried
    by an [Error] either: the conversion throws. *)
Lemma request_unprintable_detail_throws :
  Client.ok unprintable_detail_response = false
  /\ Client.request Js.VUndefined (fun _ _ => Js.Resolved unprintable_detail_response)
       "/markets" Client.no_options
     = Js.Rejected (Js.TypeError "Cannot convert object to primitive value").
Proof. split; reflexivity. Qed.

(** A [detail] that is present and empty is passed over as well. *)
Lemma request_empty_detail_ignored :
  Client.request Js.VUndefined (fun _ _ => Js.Resolved empty_detail_response)
    "/refresh" Client.no_options
  = Js.Rejected (Js.Error "Request failed: 500").
Proof. reflexivity. Qed.

(** ** ScoreBar *)

(** Doubles: how two numbers compare, and when a quotient or a product
    is a number. *)
Section FloatFacts.
Local Open Scope float_scope.

Lemma SFcompare_antisym (x y : spec_float) :
  SFcompare y x = option_map CompOpp (SFcompare x y).
Proof.
  destruct x as [sx | sx | | sx mx ex], y as [sy | sy | | sy my ey]; simpl;
    try destruct sx; try destruct sy; try reflexivity.
  - rewrite (Z.compare_antisym ex ey). destruct (ex ?= ey)%Z; simpl; try reflexivity.
    pose proof (Pos.compare_cont_antisym mx my Eq) as Ha. simpl in Ha.
    rewrite <- Ha. now rewrite CompOpp_involutive.
  - rewrite (Z.compare_antisym ex ey). destruct (ex ?= ey)%Z; simpl; try reflexivity.
    pose proof (Pos.compare_cont_antisym mx my Eq) as Ha. simpl in Ha.
    now rewrite <- Ha.
Qed.

Lemma SFcompare_refl (x : spec_float) :
  x <> S754_nan -> SFcompare x x = Some Eq.
Proof.
  destruct x as [s | s | | s m e]; simpl; try destruct s; try reflexivity;
    try congruence; intros _;
    now rewrite Z.compare_refl, Pos.compare_cont_refl.
Qed.

Lemma SFcompare_None (x y : spec_float) :
  SFcompare x y = None <-> x = S754_nan \/ y = S754_nan.
Proof.
  destruct x as [sx | sx | | sx mx ex], y as [sy | sy | | sy my ey]; simpl;
    try destruct sx; try destruct sy;
    split; intros Hc; try discriminate; auto;
    destruct Hc; discriminate.
Qed.

Lemma is_nan_spec (x : float) : is_nan x = true <-> Prim2SF x = S754_nan.
Proof.
  unfold is_nan. rewrite FloatAxioms.eqb_spec. unfold SFeqb.
  destruct (Prim2SF x) as [s | s | | s m e] eqn:Hx.
  1,2,4: rewrite SFcompare_refl by discriminate; simpl; split; discriminate.
  simpl. tauto.
Qed.

Lemma is_nan_false (x : float) : is_nan x = false <-> Prim2SF x <> S754_nan.
Proof.
  rewrite <- is_nan_spec. destruct (is_nan x); split; congruence.
Qed.

Lemma float_order_cases (x y : float) : float_order x y.
Proof.
  assert (Hnan : forall c, SFcompare (Prim2SF x) (Prim2SF y) = Some c ->
                           is_nan x = false /\ is_nan y = false).
  { intros c Hc. rewrite !is_nan_false.
    split; intros Hn; rewrite Hn in Hc; simpl in Hc; [discriminate |].
    destruct (Prim2SF x) as [[] | [] | | [] ? ?]; discriminate. }
  destruct (SFcompare (Prim2SF x) (Prim2SF y)) as [[] |] eqn:Hc.
  - destruct (Hnan _ eq_refl). apply order_eq; trivial;
      rewrite ?FloatAxioms.ltb_spec, ?FloatAxioms.leb_spec, ?FloatAxioms.eqb_spec; unfold SFltb, SFleb, SFeqb;
      rewrite ?(SFcompare_antisym (Prim2SF x) (Prim2SF y)), ?Hc; reflexivity.
  - destruct (Hnan _ eq_refl). apply order_lt; trivial;
      rewrite ?FloatAxioms.ltb_spec, ?FloatAxioms.leb_spec, ?FloatAxioms.eqb_spec; unfold SFltb, SFleb, SFeqb;
      rewrite ?(SFcompare_antisym (Prim2SF x) (Prim2SF y)), ?Hc; reflexivity.
  - destruct (Hnan _ eq_refl). apply order_gt; trivial;
      rewrite ?FloatAxioms.ltb_spec, ?FloatAxioms.leb_spec, ?FloatAxioms.eqb_spec; unfold SFltb, SFleb, SFeqb;
      rewrite ?(SFcompare_antisym (Prim2SF x) (Prim2SF y)), ?Hc; reflexivity.
  - apply order_none;
      rewrite ?FloatAxioms.ltb_spec, ?FloatAxioms.leb_spec, ?FloatAxioms.eqb_spec; unfold SFltb, SFleb, SFeqb;
      rewrite ?(SFcompare_antisym (Prim2SF x) (Prim2SF y)), ?Hc; try reflexivity.
    apply SFcompare_None in Hc. rewrite <- !is_nan_spec in Hc.
    destruct Hc as [-> | ->]; [reflexivity | apply orb_true_r].
Qed.

Lemma leb_refl (x : float) : is_nan x = false -> (x <=? x) = true.
Proof.
  intros Hx. rewrite FloatAxioms.leb_spec. unfold SFleb.
  rewrite SFcompare_refl; [reflexivity |]. now apply is_nan_false.
Qed.

Lemma shr_1_nonneg (mrs : shr_record) :
  (0 <= shr_m mrs)%Z -> (0 <= shr_m (shr_1 mrs))%Z.
Proof. destruct mrs as [[| [p | p |] | [p | p |]] r s]; simpl; lia. Qed.

Lemma iter_shr_1_nonneg (p : positive) (mrs : shr_record) :
  (0 <= shr_m mrs)%Z -> (0 <= shr_m (SpecFloat.iter_pos shr_1 p mrs))%Z.
Proof.
  revert mrs. induction p as [p IH | p IH |]; intros mrs Hm; simpl.
  - apply IH, IH. now apply shr_1_nonneg.
  - now apply IH, IH.
  - now apply shr_1_nonneg.
Qed.

Lemma shr_fexp_nonneg (prec emax m e : Z) (l : location) :
  (0 <= m)%Z -> (0 <= shr_m (fst (shr_fexp prec emax m e l)))%Z.
Proof.
  intros Hm. unfold shr_fexp, shr.
  assert (H0 : (0 <= shr_m (shr_record_of_loc m l))%Z)
    by (destruct l as [| []]; exact Hm).
  destruct (fexp prec emax (Zdigits2 m + e) - e)%Z; simpl; trivial.
  now apply iter_shr_1_nonneg.
Qed.

Lemma round_nearest_even_nonneg (m : Z) (l : location) :
  (0 <= m)%Z -> (0 <= round_nearest_even m l)%Z.
Proof.
  intros Hm. destruct l as [| []]; simpl; try destruct (Z.even m); lia.
Qed.

Lemma binary_round_aux_not_nan (prec emax : Z) (s : bool) (m e : Z) (l : location) :
  (0 <= m)%Z -> binary_round_aux prec emax s m e l <> S754_nan.
Proof.
  intros Hm. unfold binary_round_aux.
  pose proof (shr_fexp_nonneg prec emax m e l Hm) as H1.
  destruct (shr_fexp prec emax m e l) as [mrs' e']. simpl in H1.
  pose proof (shr_fexp_nonneg prec emax _ e' loc_Exact
                (round_nearest_even_nonneg _ (loc_of_shr_record mrs') H1)) as H2.
  destruct (shr_fexp prec emax _ e' loc_Exact) as [mrs'' e'']. simpl in H2.
  destruct (shr_m mrs'') as [| p | p]; [discriminate | | lia].
  destruct (e'' <=? emax - prec)%Z; discriminate.
Qed.

Lemma SFdiv_core_binary_nonneg (prec emax : Z) (mx my : positive) (ex ey : Z) :
  (0 <= fst (fst (SFdiv_core_binary prec emax (Zpos mx) ex (Zpos my) ey)))%Z.
Proof.
  unfold SFdiv_core_binary.
  set (s := (ex - ey - _)%Z).
  set (m' := match s with Zpos _ => Z.shiftl (Zpos mx) s | Z0 => Zpos mx | Zneg _ => Z0 end).
  assert (Hm' : (0 <= m')%Z).
  { subst m'. destruct s; try lia. apply Z.shiftl_nonneg. lia. }
  pose proof (Z.div_pos m' (Zpos my) Hm' eq_refl) as Hq.
  unfold Z.div in Hq. destruct (Z.div_eucl m' (Zpos my)) as [q r]. exact Hq.
Qed.

Lemma SFdiv_not_nan (x y : spec_float) (s : bool) (m : positive) (e : Z) :
  x <> S754_nan ->
  y = S754_finite s m e -> SF64div x y <> S754_nan.
Proof.
  intros Hx ->. unfold SF64div, SFdiv.
  destruct x as [sx | sx | | sx mx ex]; try discriminate; [congruence |].
  pose proof (SFdiv_core_binary_nonneg prec emax mx m ex e) as Hq.
  destruct (SFdiv_core_binary prec emax (Zpos mx) ex (Zpos m) e) as [[mz ez] lz].
  now apply binary_round_aux_not_nan.
Qed.

Lemma SFmul_not_nan (x y : spec_float) (s : bool) (m : positive) (e : Z) :
  x <> S754_nan -> y = S754_finite s m e -> SF64mul x y <> S754_nan.
Proof.
  intros Hx ->. unfold SF64mul, SFmul.
  destruct x as [sx | sx | | sx mx ex]; try discriminate; [congruence |].
  apply binary_round_aux_not_nan. lia.
Qed.

End FloatFacts.

Section ScoreBarFacts.
Import ScoreBar.
Local Open Scope float_scope.

Lemma Math_max_spec (a b : float) :
  is_nan a = false -> is_nan b = false ->
  (Math_max a b = a \/ Math_max a b = b)
  /\ (a <=? Math_max a b) = true /\ (b <=? Math_max a b) = true.
Proof.
  intros Ha Hb. unfold Math_max. rewrite Ha, Hb. cbn [orb].
  pose proof (leb_refl a Ha) as Haa. pose proof (leb_refl b Hb) as Hbb.
  destruct (float_order_cases a b) as
    [_ _ Hlt Hgt Hle Hge _ _ | _ _ Hlt Hgt Hle Hge _ _
    | _ _ Hlt Hgt Hle Hge _ _ | Hn _ _ _ _ _ _];
    [| | | rewrite Ha, Hb in Hn; discriminate];
    rewrite Hlt, ?Hgt; auto.
  destruct (classify a); auto.
Qed.

Lemma Math_min_spec (a b : float) :
  is_nan a = false -> is_nan b = false ->
  (Math_min a b = a \/ Math_min a b = b)
  /\ (Math_min a b <=? a) = true /\ (Math_min a b <=? b) = true.
Proof.
  intros Ha Hb. unfold Math_min. rewrite Ha, Hb. cbn [orb].
  pose proof (leb_refl a Ha) as Haa. pose proof (leb_refl b Hb) as Hbb.
  destruct (float_order_cases a b) as
    [_ _ Hlt Hgt Hle Hge _ _ | _ _ Hlt Hgt Hle Hge _ _
    | _ _ Hlt Hgt Hle Hge _ _ | Hn _ _ _ _ _ _];
    [| | | rewrite Ha, Hb in Hn; discriminate];
    rewrite Hlt, ?Hgt; auto.
  destruct (classify a); auto.
Qed.

Lemma Math_max_nan (a b : float) :
  is_nan a || is_nan b = true -> Math_max a b = nan.
Proof. intros Hn. unfold Math_max. now rewrite Hn. Qed.

Lemma Math_min_nan (a b : float) :
  is_nan a || is_nan b = true -> Math_min a b = nan.
Proof. intros Hn. unfold Math_min. now rewrite Hn. Qed.

Lemma percentage_bounds (value max : float) :
  is_nan (value / max * 100) = false ->
  is_nan (percentage value max) = false
  /\ (0 <=? percentage value max) = true /\ (percentage value max <=? 100) = true.
Proof.
  intros Hr. unfold percentage.
  destruct (Math_max_spec 0 (value / max * 100) eq_refl Hr) as (Hm & H0 & _).
  assert (Hn : is_nan (Math_max 0 (value / max * 100)) = false)
    by (destruct Hm as [-> | ->]; [reflexivity | exact Hr]).
  destruct (Math_min_spec 100 _ eq_refl Hn) as (Hp & H100 & _).
  split; [| split].
  - destruct Hp as [-> | ->]; [reflexivity | exact Hn].
  - destruct Hp as [-> | ->]; [reflexivity | exact H0].
  - exact H100.
Qed.

Lemma percentage_unclamped (value max : float) :
  (0 <=? value / max * 100) = true -> (value / max * 100 <=? 100) = true ->
  (percentage value max =? value / max * 100) = true.
Proof.
  intros Hlo Hhi. unfold percentage. set (r := value / max * 100) in *.
  assert (Hr : is_nan r = false).
  { destruct (float_order_cases 0 r); congruence. }
  assert (Hrr : (r =? r) = true).
  { unfold is_nan in Hr. now destruct (r =? r). }
  destruct (Math_max_spec 0 r eq_refl Hr) as (Hm & _ & Hrm).
  assert (Hn : is_nan (Math_max 0 r) = false)
    by (destruct Hm as [-> | ->]; [reflexivity | exact Hr]).
  destruct (Math_min_spec 100 _ eq_refl Hn) as (Hp & _ & Hpm).
  destruct Hm as [Hm | Hm]; rewrite Hm in *; destruct Hp as [Hp | Hp]; rewrite Hp in *.
  - vm_compute in Hpm. discriminate Hpm.
  - destruct (float_order_cases 0 r); congruence.
  - destruct (float_order_cases 100 r); congruence.
  - exact Hrr.
Qed.

Lemma percentage_nan (value max : float) :
  is_nan (value / max * 100) = true ->
  percentage value max = nan /\ colorClass (percentage value max) = "low"%string.
Proof.
  intros Hr. unfold percentage.
  rewrite (Math_max_nan 0 _) by (rewrite Hr; apply orb_true_r).
  split; reflexivity.
Qed.

Lemma leb_70_40 (p : float) : (70 <=? p) = true -> (40 <=? p) = true.
Proof.
  rewrite !FloatAxioms.leb_spec.
  replace (Prim2SF 70) with (S754_finite false 4925812092436480 (-46))
    by (vm_compute; reflexivity).
  replace (Prim2SF 40) with (S754_finite false 5629499534213120 (-47))
    by (vm_compute; reflexivity).
  unfold SFleb, SFcompare.
  destruct (Prim2SF p) as [s | [] | | [] m e]; try discriminate; try reflexivity.
  destruct (Z.compare_spec (-46) e) as [<- | Hlt | Hgt]; try discriminate.
  - reflexivity.
  - intros _. destruct (Z.compare_spec (-47) e) as [<- | Hlt' | Hgt']; try reflexivity; lia.
Qed.

Lemma ltb_100_0 (r : float) : (100 <? r) = true -> (0 <? r) = true.
Proof.
  rewrite !FloatAxioms.ltb_spec.
  replace (Prim2SF 100) with (S754_finite false 7036874417766400 (-46))
    by (vm_compute; reflexivity).
  replace (Prim2SF 0) with (S754_zero false) by (vm_compute; reflexivity).
  unfold SFltb, SFcompare.
  destruct (Prim2SF r) as [s | [] | | [] m e]; try discriminate; reflexivity.
Qed.

Lemma percentage_clamped (value max : float) :
  ((100 <? value / max * 100) = true -> percentage value max = 100)
  /\ ((value / max * 100 <? 0) = true -> percentage value max = 0).
Proof.
  unfold percentage. set (r := value / max * 100). split; intros Hr.
  - pose proof (ltb_100_0 r Hr) as H0.
    assert (Hm : Math_max 0 r = r).
    { unfold Math_max.
      destruct (float_order_cases 0 r) as [_ Hn Hlt | | |]; try congruence.
      now rewrite Hn, Hlt. }
    rewrite Hm. unfold Math_min.
    destruct (float_order_cases 100 r) as [_ Hn Hlt | | |]; try congruence.
    now rewrite Hn, Hlt.
  - assert (Hm : Math_max 0 r = 0).
    { unfold Math_max.
      destruct (float_order_cases 0 r) as [| | _ Hn Hlt Hgt |]; try congruence.
      now rewrite Hn, Hlt, Hgt. }
    rewrite Hm. reflexivity.
Qed.

Lemma colorClass_high (p : float) : colorClass p = "high"%string <-> (70 <=? p) = true.
Proof.
  unfold colorClass. destruct (70 <=? p), (40 <=? p); split; congruence.
Qed.

Lemma colorClass_medium (p : float) :
  colorClass p = "medium"%string <-> (40 <=? p) = true /\ (p <? 70) = true.
Proof.
  unfold colorClass. pose proof (leb_70_40 p) as H74.
  destruct (float_order_cases 70 p) as
    [_ _ _ Hgt Hle _ _ _ | _ _ _ Hgt Hle _ _ _ | _ _ _ Hgt Hle _ _ _ | Hn _ Hgt Hle _ _ _];
    rewrite Hle, Hgt.
  1,2: split; [discriminate | intros [_ Hf]; discriminate].
  - destruct (40 <=? p); split; try discriminate; auto. intros [Hf _]. discriminate.
  - assert (H40 : (40 <=? p) = false).
    { destruct (float_order_cases 40 p) as [Hx Hp | Hx Hp | Hx Hp |]; trivial;
        simpl in Hn; congruence. }
    rewrite H40. split; [discriminate | intros [Hf _]; discriminate].
Qed.

Lemma colorClass_low (p : float) :
  colorClass p = "low"%string <-> (p <? 40) = true \/ is_nan p = true.
Proof.
  unfold colorClass. pose proof (leb_70_40 p) as H74.
  destruct (float_order_cases 40 p) as
    [_ Hp _ Hgt Hle _ _ _ | _ Hp _ Hgt Hle _ _ _ | _ Hp _ Hgt Hle _ _ _ | Hn _ Hgt Hle _ _ _];
    rewrite Hle, Hgt.
  1,2: destruct (70 <=? p); (split; [discriminate | intros [Hf | Hf]; congruence]).
  - destruct (70 <=? p); [specialize (H74 eq_refl); congruence |]. split; auto.
  - destruct (70 <=? p); [specialize (H74 eq_refl); congruence |].
    split; [| reflexivity]. intros _. right. simpl in Hn. exact Hn.
Qed.

Lemma is_finite_spec (x : float) :
  is_finite x = true ->
  (exists s, Prim2SF x = S754_zero s) \/ (exists s m e, Prim2SF x = S754_finite s m e).
Proof.
  unfold is_finite, is_infinity. rewrite negb_true_iff, orb_false_iff.
  intros [Hn Hi]. apply is_nan_false in Hn.
  rewrite FloatAxioms.eqb_spec, abs_spec in Hi.
  replace (Prim2SF infinity) with (S754_infinity false) in Hi by (vm_compute; reflexivity).
  destruct (Prim2SF x) as [s | s | | s m e]; [eauto | discriminate | congruence | eauto 6].
Qed.

Lemma finite_ratio (value max : float) :
  is_finite value = true -> is_finite max = true -> (0 <? max) = true ->
  is_nan (value / max * 100) = false.
Proof.
  intros Hv Hm Hpos. apply is_nan_false.
  rewrite mul_spec, div_spec.
  assert (Hmax : exists s m e, Prim2SF max = S754_finite s m e).
  { destruct (is_finite_spec max Hm) as [[s Hz] | Hf]; [| exact Hf].
    rewrite FloatAxioms.ltb_spec, Hz in Hpos.
    replace (Prim2SF 0) with (S754_zero false) in Hpos by (vm_compute; reflexivity).
    discriminate. }
  destruct Hmax as (s & m & e & Hmax).
  assert (Hv' : Prim2SF value <> S754_nan).
  { destruct (is_finite_spec value Hv) as [[sv ->] | (sv & mv & ev & ->)]; discriminate. }
  apply SFmul_not_nan with (s := false) (m := 7036874417766400%positive) (e := (-46)%Z).
  - now apply SFdiv_not_nan with (s := s) (m := m) (e := e).
  - vm_compute. reflexivity.
Qed.

(** C10, as the code has it: the fill's width is
    [Math.min(100, Math.max(0, (value / max) * 100))] in double
    arithmetic. For a finite score and a finite positive [max] the
    quotient times 100 is a number, and whenever it is a number the width
    lies in 0..100 whatever the score: it is that number when it lies in
    0..100, 100 above and 0 below. When it is NaN (a NaN score, or a
    score and a [max] that are both infinite) the width is NaN and the
    class is low. The class is high exactly from 70 up, medium exactly
    from 40 up to below 70, low exactly below 40 or for NaN; [max] is
    100 when the prop is left out. *)
Theorem ScoreBar_fill (value max : float) :
  let bar := ScoreBar value (Some max) in
  let ratio := value / max * 100 in
  fill_width bar = Math_min 100 (Math_max 0 ratio)
  /\ (is_finite value = true -> is_finite max = true -> (0 <? max) = true ->
      is_nan ratio = false)
  /\ (is_nan ratio = false ->
      is_nan (fill_width bar) = false
      /\ (0 <=? fill_width bar) = true /\ (fill_width bar <=? 100) = true)
  /\ ((0 <=? ratio) = true -> (ratio <=? 100) = true ->
      (fill_width bar =? ratio) = true)
  /\ ((100 <? ratio) = true -> fill_width bar = 100)
  /\ ((ratio <? 0) = true -> fill_width bar = 0)
  /\ (is_nan ratio = true -> fill_width bar = nan /\ fill_class bar = "low"%string)
  /\ (fill_class bar = "high"%string <-> (70 <=? fill_width bar) = true)
  /\ (fill_class bar = "medium"%string <->
      (40 <=? fill_width bar) = true /\ (fill_width bar <? 70) = true)
  /\ (fill_class bar = "low"%string <->
      (fill_width bar <? 40) = true \/ is_nan (fill_width bar) = true)
  /\ ScoreBar value None = ScoreBar value (Some 100).
Proof.
  intros bar ratio. subst bar ratio. unfold ScoreBar. cbn [fill_width fill_class].
  split; [reflexivity |].
  split; [apply finite_ratio |].
  split; [apply percentage_bounds |].
  split; [apply percentage_unclamped |].
  split; [apply percentage_clamped |].
  split; [apply percentage_clamped |].
  split; [apply percentage_nan |].
  split; [apply colorClass_high |].
  split; [apply colorClass_medium |].
  split; [apply colorClass_low |].
  reflexivity.
Qed.

End ScoreBarFacts.

(** A score of 85 out of 100. *)
Lemma ScoreBar_fill_witness :
  PrimFloat.is_nan (85 / 100 * 100)%float = false
  /\ (0 <=? ScoreBar.fill_width (ScoreBar.ScoreBar 85 (Some 100%float)))%float = true
  /\ (ScoreBar.fill_width (ScoreBar.ScoreBar 85 (Some 100%float)) <=? 100)%float = true
  /\ ScoreBar.fill_class (ScoreBar.ScoreBar 85 (Some 100%float)) = "high".
Proof.
  pose proof (ScoreBar_fill 85 100) as Hbar. cbv zeta in Hbar.
  destruct Hbar as (_ & Hfinite & Hbounds & _ & _ & _ & _ & Hhigh & _).
  pose proof (Hfinite eq_refl eq_refl eq_refl) as Hratio.
  destruct (Hbounds Hratio) as (_ & Hlo & Hhi).
  split; [exact Hratio |]. split; [exact Hlo |]. split; [exact Hhi |].
  apply Hhigh. reflexivity.
Defined.

(** C10 as stated fails for a score and a positive [max] that are both
    infinite, and for a score that is NaN: the width is NaN, which is
    neither at least 0 nor at most 100. *)
Lemma ScoreBar_width_not_a_number :
  (0 <? infinity)%float = true
  /\ PrimFloat.is_nan (ScoreBar.fill_width (ScoreBar.ScoreBar infinity (Some infinity)))
     = true
  /\ (0 <=? ScoreBar.fill_width (ScoreBar.ScoreBar infinity (Some infinity)))%float = false
  /\ (ScoreBar.fill_width (ScoreBar.ScoreBar infinity (Some infinity)) <=? 100)%float
     = false
  /\ PrimFloat.is_nan (ScoreBar.fill_width (ScoreBar.ScoreBar nan None)) = true
  /\ (0 <=? ScoreBar.fill_width (ScoreBar.ScoreBar nan None))%float = false.
Proof. vm_compute. repeat split. Qed.

(** Rounding shows: 57 out of 100 is drawn 56.99999999999999 wide. *)
Example ScoreBar_examples :
  ScoreBar.fill_width (ScoreBar.ScoreBar 57 None) = 0x1.c7fffffffffffp+5%float
  /\ ScoreBar.fill_class (ScoreBar.ScoreBar 85 None) = "high"
  /\ ScoreBar.fill_class (ScoreBar.ScoreBar 55 None) = "medium"
  /\ ScoreBar.fill_class (ScoreBar.ScoreBar 12 None) = "low"
  /\ ScoreBar.fill_width (ScoreBar.ScoreBar 250 None) = 100%float
  /\ ScoreBar.fill_width (ScoreBar.ScoreBar (-5) None) = 0%float.
Proof. vm_compute. repeat split. Qed.

(** ** OpportunityCard *)

(** C8 fails on the code: an opportunity of type temporal gets the raw
    string on gray, the other four edge types get their label and
    colour, and the table's fifth entry is for a type the engine does not
    have. *)
Theorem temporal_has_no_label :
  OpportunityCard.typeInfo "temporal"
  = {| OpportunityCard.label := "temporal"; OpportunityCard.color := "gray" |}
  /\ List.filter OpportunityCard.is_fallback OpportunityCard.EDGE_TYPES = ["temporal"]
  /\ List.map OpportunityCard.typeInfo
       ["arbitrage"; "mispricing"; "volume_signal"; "liquidity_gap"]
     = [ {| OpportunityCard.label := "Arbitrage"; OpportunityCard.color := "green" |};
         {| OpportunityCard.label := "Mispricing"; OpportunityCard.color := "yellow" |};
         {| OpportunityCard.label := "Volume Signal"; OpportunityCard.color := "purple" |};
         {| OpportunityCard.label := "Liquidity Gap"; OpportunityCard.color := "blue" |} ]
  /\ OpportunityCard.is_fallback "correlation" = false.
Proof. repeat split. Qed.

(** ** The refresh handling of App *)

Section AppFacts.
Import App.

Lemma run_app s es1 es2 :
  run s (es1 ++ es2) = s' ← run s es1; run s' es2.
Proof.
  revert s. induction es1 as [| e es1 IH]; intros s; simpl; [reflexivity |].
  destruct (step s e) as [s1 |]; simpl; [apply IH | reflexivity].
Qed.

Lemma resume_inv t s s1 :
  resume t s = Some s1 ->
  exists ts, remove_first t (tasks s) = Some ts /\ s1 = set_tasks ts s.
Proof.
  unfold resume. destruct (remove_first t (tasks s)) as [ts |]; simpl;
    [| discriminate].
  intros Heq. inversion Heq. eauto.
Qed.

Lemma refreshing_disables (s : State) :
  refreshing s = true ->
  loadDemo_disabled s = true /\ refresh_disabled s = true
  /\ step s ClickRefresh = None /\ step s ClickLoadDemo = None.
Proof.
  intros Hr. unfold step, loadDemo_disabled, refresh_disabled.
  rewrite Hr, orb_true_r. auto.
Qed.

Lemma refreshing_cleared (s s' : State) (e : event) :
  step s e = Some s' -> refreshing s = true -> refreshing s' = false ->
  (exists timer,
      e = StatusSettled timer (Fulfilled false)
      /\ ~ In timer (timers s') /\ calls s' = (calls s ++ [CallFetchAll])%list)
  \/ (exists message,
         (e = RefreshSettled (Failed message)
          \/ exists timer, e = StatusSettled timer (Failed message))
         /\ error s' = Some message /\ calls s' = calls s).
Proof.
  intros Hstep Hr Hr'. destruct e as [t | | | | t | r | r | r | t r]; simpl in Hstep.
  - inversion Hstep; subst. simpl in Hr'. congruence.
  - unfold loadDemo_disabled in Hstep. rewrite Hr, orb_true_r in Hstep. discriminate.
  - destruct (loadDemoData_rendered s); inversion Hstep; subst.
    simpl in Hr'. congruence.
  - unfold refresh_disabled in Hstep. rewrite Hr, orb_true_r in Hstep. discriminate.
  - destruct (existsb _ _); inversion Hstep; subst. simpl in Hr'. congruence.
  - destruct (resume AwaitFetch s) as [s1 |] eqn:Hres; simpl in Hstep; [| discriminate].
    apply resume_inv in Hres as (ts & _ & ->).
    inversion Hstep; subst. destruct r; simpl in Hr'; congruence.
  - destruct (resume AwaitDemo s) as [s1 |] eqn:Hres; simpl in Hstep; [| discriminate].
    apply resume_inv in Hres as (ts & _ & ->).
    inversion Hstep; subst. destruct r; simpl in Hr'; congruence.
  - destruct (resume AwaitRefresh s) as [s1 |] eqn:Hres; simpl in Hstep; [| discriminate].
    apply resume_inv in Hres as (ts & _ & ->).
    inversion Hstep; subst. destruct r as [u | message]; simpl in Hr'; [congruence |].
    right. exists message. simpl. auto.
  - destruct (resume (AwaitStatus t) s) as [s1 |] eqn:Hres; simpl in Hstep;
      [| discriminate].
    apply resume_inv in Hres as (ts & _ & ->).
    inversion Hstep; subst. destruct r as [[|] | message]; simpl in Hr'.
    + congruence.
    + left. exists t. simpl. split; [reflexivity |]. split; [| reflexivity].
      rewrite filter_In. intros [_ Hneq]. now rewrite Nat.eqb_refl in Hneq.
    + right. exists message. simpl. eauto.
Qed.

Lemma status_still_loading (s s' : State) (timer : nat) :
  step s (StatusSettled timer (Fulfilled true)) = Some s' ->
  refreshing s' = refreshing s /\ timers s' = timers s /\ calls s' = calls s
  /\ loading s' = loading s /\ error s' = error s.
Proof.
  simpl. destruct (resume (AwaitStatus timer) s) as [s1 |] eqn:Hres; simpl;
    [| discriminate].
  apply resume_inv in Hres as (ts & _ & ->). intros Heq. inversion Heq. simpl. auto.
Qed.

Lemma status_done (s s' : State) (timer : nat) :
  step s (StatusSettled timer (Fulfilled false)) = Some s' ->
  refreshing s' = false /\ ~ In timer (timers s')
  /\ calls s' = (calls s ++ [CallFetchAll])%list /\ loading s' = true.
Proof.
  simpl. destruct (resume (AwaitStatus timer) s) as [s1 |] eqn:Hres; simpl;
    [| discriminate].
  apply resume_inv in Hres as (ts & _ & ->). intros Heq. inversion Heq. simpl.
  repeat split; auto.
  rewrite filter_In. intros [_ Hneq]. now rewrite Nat.eqb_refl in Hneq.
Qed.

Lemma refresh_start (s : State) :
  quiescent s ->
  run s [ClickRefresh; RefreshSettled (Fulfilled tt)] = Some (polling s 0).
Proof.
  intros (Hl & Hr & Ht & Hi). destruct s; simpl in *; subst.
  unfold step, refresh_disabled, handleRefresh, resume; simpl.
  reflexivity.
Qed.

Lemma poll_still_loading (s : State) (k : nat) :
  run (polling s k) (poll (next_timer s) true) = Some (polling s (S k)).
Proof.
  unfold poll, run, step, resume, polling, send; simpl.
  rewrite Nat.eqb_refl; simpl.
  destruct (decide (AwaitStatus (next_timer s) = AwaitStatus (next_timer s)));
    [| congruence].
  simpl. unfold set_tasks; simpl. do 2 f_equal.
  rewrite <- app_assoc. f_equal. simpl. f_equal. symmetry. apply repeat_cons.
Qed.

Lemma polls_still_loading (s : State) (j k : nat) :
  run (polling s j) (polls (next_timer s) k) = Some (polling s (k + j)).
Proof.
  revert j. induction k as [| k IH]; intros j; [reflexivity |].
  cbn [polls]. rewrite run_app, poll_still_loading. simpl.
  rewrite IH. do 2 f_equal. lia.
Qed.

Lemma poll_done (s : State) (k : nat) :
  run (polling s k) (poll (next_timer s) false) = Some (refetching s k).
Proof.
  unfold poll, run, step, resume, polling, refetching, send; simpl.
  rewrite Nat.eqb_refl; simpl.
  destruct (decide (AwaitStatus (next_timer s) = AwaitStatus (next_timer s)));
    [| congruence].
  simpl. unfold fetchData, send, clearInterval, set_tasks; simpl.
  rewrite Nat.eqb_refl; simpl. do 2 f_equal.
  rewrite <- !app_assoc. f_equal. simpl. f_equal.
  change (CallStatus :: repeat CallStatus k ++ [CallFetchAll])%list
    with ((CallStatus :: repeat CallStatus k) ++ [CallFetchAll])%list.
  rewrite repeat_cons, <- app_assoc. reflexivity.
Qed.

Lemma refresh_started_run (s : State) (k : nat) :
  quiescent s ->
  run s (refresh_started (next_timer s) k) = Some (polling s k).
Proof.
  intros Hq. unfold refresh_started.
  change (ClickRefresh :: RefreshSettled (Fulfilled tt) :: polls (next_timer s) k)
    with ([ClickRefresh; RefreshSettled (Fulfilled tt)] ++ polls (next_timer s) k)%list.
  rewrite run_app, (refresh_start s Hq). simpl.
  rewrite polls_still_loading. do 2 f_equal. lia.
Qed.

Lemma refresh_completed_run (s : State) (k : nat) :
  quiescent s ->
  run s (refresh_completed (next_timer s) k) = Some (refetching s k).
Proof.
  intros Hq. unfold refresh_completed.
  rewrite run_app, (refresh_started_run s k Hq). simpl. apply poll_done.
Qed.

Lemma count_calls_app (c : call) (cs cs' : list call) :
  count_calls c (cs ++ cs') = count_calls c cs + count_calls c cs'.
Proof. unfold count_calls. now rewrite List.filter_app, length_app. Qed.

Lemma count_calls_repeat (c c' : call) (n : nat) :
  count_calls c (repeat c' n) = if same_kind c c' then n else 0%nat.
Proof.
  unfold count_calls. induction n as [| n IH]; simpl.
  - now destruct (same_kind c c').
  - destruct (same_kind c c'); simpl; congruence.
Qed.

Lemma polling_sent (s : State) (k : nat) :
  sent CallStatus (polling s k) = sent CallStatus s + k
  /\ sent CallFetchAll (polling s k) = sent CallFetchAll s.
Proof.
  unfold sent. cbn [calls polling].
  change (CallRefresh 100 1000 :: repeat CallStatus k)
    with ([CallRefresh 100 1000] ++ repeat CallStatus k)%list.
  rewrite !count_calls_app, !count_calls_repeat. cbn. split; lia.
Qed.

Lemma refetching_sent (s : State) (k : nat) :
  sent (CallRefresh 100 1000) (refetching s k) = S (sent (CallRefresh 100 1000) s)
  /\ sent CallStatus (refetching s k) = sent CallStatus s + S k
  /\ sent CallFetchAll (refetching s k) = S (sent CallFetchAll s).
Proof.
  unfold sent. cbn [calls refetching].
  change (CallRefresh 100 1000 :: repeat CallStatus (S k) ++ [CallFetchAll])
    with ([CallRefresh 100 1000] ++ repeat CallStatus (S k) ++ [CallFetchAll])%list.
  rewrite !count_calls_app, !count_calls_repeat. cbn. repeat split; lia.
Qed.

Lemma refresh_failure (s s' : State) (message : string) :
  step s (RefreshSettled (Failed message)) = Some s' ->
  refreshing s' = false /\ error s' = Some message
  /\ calls s' = calls s /\ timers s' = timers s.
Proof.
  simpl. destruct (resume AwaitRefresh s) as [s1 |] eqn:Hres; simpl;
    [| discriminate].
  apply resume_inv in Hres as (ts & _ & ->). intros Heq. inversion Heq. simpl. auto.
Qed.

Lemma status_failure (s s' : State) (timer : nat) (message : string) :
  step s (StatusSettled timer (Failed message)) = Some s' ->
  refreshing s' = false /\ error s' = Some message
  /\ ~ In timer (timers s') /\ calls s' = calls s.
Proof.
  simpl. destruct (resume (AwaitStatus timer) s) as [s1 |] eqn:Hres; simpl;
    [| discriminate].
  apply resume_inv in Hres as (ts & _ & ->). intros Heq. inversion Heq. simpl.
  repeat split; auto.
  rewrite filter_In. intros [_ Hneq]. now rewrite Nat.eqb_refl in Hneq.
Qed.

Lemma refresh_accepted (s s' : State) :
  step s (RefreshSettled (Fulfilled tt)) = Some s' ->
  refreshing s' = refreshing s /\ timers s' = (timers s ++ [next_timer s])%list
  /\ calls s' = calls s.
Proof.
  simpl. destruct (resume AwaitRefresh s) as [s1 |] eqn:Hres; simpl;
    [| discriminate].
  apply resume_inv in Hres as (ts & _ & ->). intros Heq. inversion Heq. simpl. auto.
Qed.

Lemma click_refresh (s : State) :
  refresh_disabled s = false ->
  exists s', step s ClickRefresh = Some s'
             /\ refreshing s' = true /\ error s' = None
             /\ tasks s' = (tasks s ++ [AwaitRefresh])%list
             /\ calls s' = (calls s ++ [CallRefresh 100 1000])%list.
Proof.
  intros Hd. exists (handleRefresh s). simpl. rewrite Hd. repeat split.
Qed.

Lemma tick_polls (s s' : State) (timer : nat) :
  step s (Tick timer) = Some s' ->
  In timer (timers s) /\ calls s' = (calls s ++ [CallStatus])%list
  /\ tasks s' = (tasks s ++ [AwaitStatus timer])%list
  /\ refreshing s' = refreshing s /\ timers s' = timers s.
Proof.
  simpl. destruct (existsb (Nat.eqb timer) (timers s)) eqn:Hex; [| discriminate].
  intros Heq. inversion Heq. simpl. repeat split.
  apply existsb_exists in Hex as (t & Hin & Ht).
  apply Nat.eqb_eq in Ht. now subst.
Qed.

Lemma remove_first_Some (t : task) (ts : list task) :
  In t ts -> exists ts', remove_first t ts = Some ts'.
Proof.
  induction ts as [| t' ts IH]; simpl; [intros [] |].
  intros Hin. destruct (decide (t' = t)) as [-> | Hne]; [eauto |].
  destruct Hin as [-> | Hin]; [congruence |].
  destruct (IH Hin) as [ts' ->]. simpl. eauto.
Qed.

Lemma settles (s : State) (t : task) (e : event) :
  In t (tasks s) ->
  (t = AwaitRefresh /\ exists r, e = RefreshSettled r)
  \/ (exists timer r, t = AwaitStatus timer /\ e = StatusSettled timer r) ->
  exists s', step s e = Some s'.
Proof.
  intros Hin He. destruct (remove_first_Some _ _ Hin) as [ts' Hts].
  destruct He as [[-> [r ->]] | (timer & r & -> & ->)]; simpl;
    unfold resume; rewrite Hts; simpl; eauto.
Qed.

Lemma refresh_rejected_run (s : State) (message : string) :
  quiescent s ->
  run s (refresh_rejected message) = Some (refresh_failed s message).
Proof.
  intros (Hl & Hr & Ht & Hi). destruct s; simpl in *; subst.
  unfold step, refresh_disabled, handleRefresh, resume; simpl.
  reflexivity.
Qed.

Lemma poll_rejected (s : State) (k : nat) (message : string) :
  run (polling s k)
    [Tick (next_timer s); StatusSettled (next_timer s) (Failed message)]
  = Some (polling_failed s k message).
Proof.
  unfold run, step, resume, polling, polling_failed, send; simpl.
  rewrite Nat.eqb_refl; simpl.
  destruct (decide (AwaitStatus (next_timer s) = AwaitStatus (next_timer s)));
    [| congruence].
  simpl. unfold clearInterval, set_error, set_refreshing, set_timers, set_tasks; simpl.
  rewrite Nat.eqb_refl; simpl. do 2 f_equal.
  rewrite <- app_assoc. f_equal. simpl. f_equal. symmetry. apply repeat_cons.
Qed.

Lemma status_rejected_run (s : State) (k : nat) (message : string) :
  quiescent s ->
  run s (status_rejected (next_timer s) k message)
  = Some (polling_failed s k message).
Proof.
  intros Hq. unfold status_rejected.
  rewrite run_app, (refresh_started_run s k Hq). simpl. apply poll_rejected.
Qed.

Lemma polling_failed_sent (s : State) (k : nat) (message : string) :
  sent (CallRefresh 100 1000) (polling_failed s k message)
  = S (sent (CallRefresh 100 1000) s)
  /\ sent CallStatus (polling_failed s k message) = sent CallStatus s + S k
  /\ sent CallFetchAll (polling_failed s k message) = sent CallFetchAll s.
Proof.
  unfold sent. cbn [calls polling_failed].
  change (CallRefresh 100 1000 :: repeat CallStatus (S k))
    with ([CallRefresh 100 1000] ++ repeat CallStatus (S k))%list.
  rewrite !count_calls_app, !count_calls_repeat. cbn. repeat split; lia.
Qed.

Lemma refresh_failed_sent (s : State) (message : string) :
  sent (CallRefresh 100 1000) (refresh_failed s message)
  = S (sent (CallRefresh 100 1000) s)
  /\ sent CallStatus (refresh_failed s message) = sent CallStatus s
  /\ sent CallFetchAll (refresh_failed s message) = sent CallFetchAll s.
Proof.
  unfold sent. cbn [calls refresh_failed].
  rewrite !count_calls_app. cbn. repeat split; lia.
Qed.

(** C6, as the code has it: while [refreshing] is true the two header
    buttons are disabled and neither handler can be started from them;
    [refreshing] goes back to false only when a status answer says the
    backend is done, which clears the timer and refetches, or when the
    refresh request or a status request fails, which records the message
    and refetches nothing; an answer "still loading" changes nothing; and
    a refresh started from rest whose answers arrive before the next tick
    sends one status request per tick while [refreshing] stays true, then
    refetches all collections exactly once. Each of the two failures does
    set [refreshing] to false: the failure of the refresh request starts
    no polling, the failure of a status request clears the timer, and
    after either the error is shown, nothing was refetched and the
    buttons are enabled again. *)
Theorem refresh_protocol (s : State) :
  (refreshing s = true ->
     loadDemo_disabled s = true /\ refresh_disabled s = true
     /\ step s ClickRefresh = None /\ step s ClickLoadDemo = None)
  /\ (forall e s', step s e = Some s' -> refreshing s = true -> refreshing s' = false ->
        (exists timer,
            e = StatusSettled timer (Fulfilled false)
            /\ ~ In timer (timers s')
            /\ calls s' = (calls s ++ [CallFetchAll])%list)
        \/ (exists message,
               (e = RefreshSettled (Failed message)
                \/ exists timer, e = StatusSettled timer (Failed message))
               /\ error s' = Some message /\ calls s' = calls s))
  /\ (forall timer s', step s (StatusSettled timer (Fulfilled true)) = Some s' ->
        refreshing s' = refreshing s /\ timers s' = timers s /\ calls s' = calls s)
  /\ (forall timer s', step s (StatusSettled timer (Fulfilled false)) = Some s' ->
        refreshing s' = false /\ ~ In timer (timers s')
        /\ calls s' = (calls s ++ [CallFetchAll])%list)
  /\ (quiescent s -> forall k,
        (forall j, j <= k ->
           exists sj, run s (refresh_started (next_timer s) j) = Some sj
                      /\ refreshing sj = true
                      /\ step sj ClickRefresh = None
                      /\ sent CallStatus sj = sent CallStatus s + j
                      /\ sent CallFetchAll sj = sent CallFetchAll s)
        /\ exists s', run s (refresh_completed (next_timer s) k) = Some s'
                      /\ refreshing s' = false /\ timers s' = []
                      /\ sent (CallRefresh 100 1000) s' = S (sent (CallRefresh 100 1000) s)
                      /\ sent CallStatus s' = sent CallStatus s + S k
                      /\ sent CallFetchAll s' = S (sent CallFetchAll s))
  /\ (forall message s', step s (RefreshSettled (Failed message)) = Some s' ->
        refreshing s' = false /\ error s' = Some message
        /\ calls s' = calls s /\ timers s' = timers s)
  /\ (forall timer message s',
        step s (StatusSettled timer (Failed message)) = Some s' ->
        refreshing s' = false /\ error s' = Some message
        /\ ~ In timer (timers s') /\ calls s' = calls s)
  /\ (In AwaitRefresh (tasks s) ->
        forall r, exists s', step s (RefreshSettled r) = Some s')
  /\ (forall timer, In (AwaitStatus timer) (tasks s) ->
        forall r, exists s', step s (StatusSettled timer r) = Some s')
  /\ (refresh_disabled s = false ->
        exists s', step s ClickRefresh = Some s'
                   /\ refreshing s' = true /\ error s' = None
                   /\ tasks s' = (tasks s ++ [AwaitRefresh])%list
                   /\ calls s' = (calls s ++ [CallRefresh 100 1000])%list)
  /\ (forall s', step s (RefreshSettled (Fulfilled tt)) = Some s' ->
        refreshing s' = refreshing s
        /\ timers s' = (timers s ++ [next_timer s])%list /\ calls s' = calls s)
  /\ (forall timer s', step s (Tick timer) = Some s' ->
        In timer (timers s) /\ calls s' = (calls s ++ [CallStatus])%list
        /\ tasks s' = (tasks s ++ [AwaitStatus timer])%list
        /\ refreshing s' = refreshing s /\ timers s' = timers s)
  /\ (quiescent s -> forall message,
        (exists s', run s (refresh_rejected message) = Some s'
                    /\ refreshing s' = false /\ error s' = Some message
                    /\ timers s' = [] /\ tasks s' = []
                    /\ refresh_disabled s' = false /\ loadDemo_disabled s' = false
                    /\ sent (CallRefresh 100 1000) s' = S (sent (CallRefresh 100 1000) s)
                    /\ sent CallStatus s' = sent CallStatus s
                    /\ sent CallFetchAll s' = sent CallFetchAll s)
        /\ forall k,
            exists s', run s (status_rejected (next_timer s) k message) = Some s'
                       /\ refreshing s' = false /\ error s' = Some message
                       /\ timers s' = [] /\ tasks s' = []
                       /\ refresh_disabled s' = false /\ loadDemo_disabled s' = false
                       /\ sent (CallRefresh 100 1000) s'
                          = S (sent (CallRefresh 100 1000) s)
                       /\ sent CallStatus s' = sent CallStatus s + S k
                       /\ sent CallFetchAll s' = sent CallFetchAll s).
Proof.
  split; [apply refreshing_disables |].
  split; [intros e s'; apply refreshing_cleared |].
  split.
  { intros timer s' Hstep.
    destruct (status_still_loading _ _ _ Hstep) as (? & ? & ? & _). auto. }
  split.
  { intros timer s' Hstep.
    destruct (status_done _ _ _ Hstep) as (? & ? & ? & _). auto. }
  split.
  { intros Hq k. split.
    - intros j _. exists (polling s j).
      split; [now apply refresh_started_run |].
      split; [reflexivity |].
      split; [apply refreshing_disables; reflexivity |].
      apply polling_sent.
    - exists (refetching s k).
      split; [now apply refresh_completed_run |].
      split; [reflexivity |]. split; [reflexivity |].
      apply refetching_sent. }
  split; [intros message s'; apply refresh_failure |].
  split; [intros timer message s'; apply status_failure |].
  split.
  { intros Hin r. apply (settles s AwaitRefresh); [exact Hin |]. left. eauto. }
  split.
  { intros timer Hin r. apply (settles s (AwaitStatus timer)); [exact Hin |].
    right. eauto. }
  split; [apply click_refresh |].
  split; [intros s'; apply refresh_accepted |].
  split; [intros timer s'; apply tick_polls |].
  intros Hq message.
  assert (Hl : loading s = false) by apply Hq.
  split.
  - exists (refresh_failed s message).
    split; [now apply refresh_rejected_run |].
    do 4 (split; [reflexivity |]).
    unfold refresh_disabled, loadDemo_disabled. cbn [loading refreshing refresh_failed].
    rewrite Hl. do 2 (split; [reflexivity |]).
    apply refresh_failed_sent.
  - intros k. exists (polling_failed s k message).
    split; [now apply status_rejected_run |].
    do 4 (split; [reflexivity |]).
    unfold refresh_disabled, loadDemo_disabled. cbn [loading refreshing polling_failed].
    rewrite Hl. do 2 (split; [reflexivity |]).
    apply polling_failed_sent.
Qed.

End AppFacts.

Example loaded_reachable :
  App.run App.initial [App.FetchSettled (App.Fulfilled demo_data)] = Some loaded.
Proof. vm_compute. reflexivity. Qed.

(** A refresh answered "still loading" twice and then "done": three
    status requests and one refetch after the first load. The same
    refresh with a third status request that fails: [refreshing] is
    false again, the message is shown and nothing was refetched. *)
Lemma refresh_protocol_witness :
  (exists s',
      App.run loaded (refresh_completed 0 2) = Some s'
      /\ App.refreshing s' = false
      /\ App.sent App.CallStatus s' = 3
      /\ App.sent App.CallFetchAll s' = 2)
  /\ (exists s',
        App.run loaded (status_rejected 0 2 "Request failed: 502") = Some s'
        /\ App.refreshing s' = false
        /\ App.error s' = Some "Request failed: 502"
        /\ App.refresh_disabled s' = false
        /\ App.sent App.CallStatus s' = 3
        /\ App.sent App.CallFetchAll s' = 1)
  /\ (exists s',
        App.run loaded (refresh_rejected "Request failed: 500") = Some s'
        /\ App.refreshing s' = false
        /\ App.error s' = Some "Request failed: 500"
        /\ App.sent App.CallStatus s' = 0
        /\ App.sent App.CallFetchAll s' = 1).
Proof.
  destruct (refresh_protocol loaded)
    as (_ & _ & _ & _ & Hrun & _ & _ & _ & _ & _ & _ & _ & Hfail).
  assert (Hq : quiescent loaded) by (repeat split).
  split; [| split].
  - destruct (Hrun Hq 2) as (_ & s' & Hs' & Hr & _ & _ & Hstatus & Hfetch).
    exists s'. split; [exact Hs' |]. split; [exact Hr |].
    split; [exact Hstatus | exact Hfetch].
  - destruct (Hfail Hq "Request failed: 502") as (_ & Hpoll).
    destruct (Hpoll 2) as (s' & Hs' & Hr & He & _ & _ & Hd & _ & _ & Hstatus & Hfetch).
    exists s'. split; [exact Hs' |]. split; [exact Hr |]. split; [exact He |].
    split; [exact Hd |]. split; [exact Hstatus | exact Hfetch].
  - destruct (Hfail Hq "Request failed: 500") as (Hreq & _).
    destruct Hreq as (s' & Hs' & Hr & He & _ & _ & _ & _ & _ & Hstatus & Hfetch).
    exists s'. split; [exact Hs' |]. split; [exact Hr |]. split; [exact He |].
    split; [exact Hstatus | exact Hfetch].
Defined.

(** C6 as stated fails when the refresh request itself fails:
    [refreshing] goes back to false although no status answer ever said
    that loading was over, and nothing is refetched. *)
Lemma refresh_failure_clears_refreshing :
  exists s1 s2,
    App.run App.initial [App.FetchSettled (App.Fulfilled demo_data); App.ClickRefresh]
    = Some s1
    /\ App.refreshing s1 = true
    /\ App.step s1 (App.RefreshSettled (App.Failed "Request failed: 500")) = Some s2
    /\ App.refreshing s2 = false
    /\ App.sent App.CallStatus s2 = 0
    /\ App.sent App.CallFetchAll s2 = App.sent App.CallFetchAll s1
    /\ App.error s2 = Some "Request failed: 500".
Proof.
  do 2 eexists.
  split; [vm_compute; reflexivity |]. split; [reflexivity |].
  split; [vm_compute; reflexivity |]. vm_compute. repeat split.
Qed.

(** The same when a status request fails while the backend is still
    loading: the buttons come back and a second refresh can be sent. *)
Lemma status_failure_clears_refreshing :
  exists s',
    App.run loaded
      [App.ClickRefresh; App.RefreshSettled (App.Fulfilled tt); App.Tick 0;
       App.StatusSettled 0 (App.Failed "Request failed: 502"); App.ClickRefresh]
    = Some s'
    /\ App.sent (App.CallRefresh 100 1000) s' = 2
    /\ App.sent App.CallFetchAll s' = 1.
Proof.
  eexists. split; [vm_compute; reflexivity |]. vm_compute. repeat split.
Qed.

(** Answers that arrive after a later tick each run the callback: two
    ticks answered "done" refetch twice. *)
Lemma overlapping_polls_refetch_twice :
  exists s',
    App.run loaded
      [App.ClickRefresh; App.RefreshSettled (App.Fulfilled tt); App.Tick 0; App.Tick 0;
       App.StatusSettled 0 (App.Fulfilled false);
       App.StatusSettled 0 (App.Fulfilled false)]
    = Some s'
    /\ App.sent App.CallFetchAll s' = 3.
Proof.
  eexists. split; [vm_compute; reflexivity |]. vm_compute. repeat split.
Qed.

(** The button of the empty markets tab is not guarded by [refreshing]:
    with no markets loaded, demo data can be requested during a refresh. *)
Lemma empty_state_button_stays_enabled :
  exists s',
    App.run App.initial
      [App.FetchSettled (App.Failed "Failed to fetch"); App.ClickRefresh;
       App.ClickLoadDemoData]
    = Some s'
    /\ App.refreshing s' = true
    /\ App.sent App.CallLoadDemo s' = 1%nat.
Proof.
  eexists. split; [vm_compute; reflexivity |]. vm_compute. repeat split.
Qed.

(** While a refresh is polling, the header buttons refuse a click. *)
Example no_second_refresh :
  App.run loaded
    [App.ClickRefresh; App.RefreshSettled (App.Fulfilled tt); App.Tick 0;
     App.ClickRefresh] = None
  /\ App.run loaded [App.ClickRefresh; App.ClickLoadDemo] = None.
Proof. split; vm_compute; reflexivity. Qed.

(** ** The engine *)

Section OrchestratorFacts.
Import Engine.
Local Open Scope Q_scope.

Lemma Qlt_bool_iff (a b : Q) : Qlt_bool a b = true <-> a < b.
Proof.
  unfold Qlt_bool. rewrite negb_true_iff. split.
  - intros Hf. apply Qnot_le_lt. intros Hle.
    apply Qle_bool_iff in Hle. congruence.
  - intros Hlt. destruct (Qle_bool b a) eqn:Hle; [| reflexivity].
    apply Qle_bool_iff in Hle. exfalso. apply (Qlt_not_le _ _ Hlt Hle).
Qed.

Lemma Qlt_bool_false_iff (a b : Q) : Qlt_bool a b = false <-> b <= a.
Proof.
  unfold Qlt_bool. rewrite negb_false_iff. apply Qle_bool_iff.
Qed.

Lemma direction_of_spec (deadband edge : Q) :
  0 <= deadband ->
  (direction_of deadband edge = buy_yes <-> deadband < edge)
  /\ (direction_of deadband edge = buy_no <-> edge < - deadband)
  /\ (direction_of deadband edge = hold <-> - deadband <= edge /\ edge <= deadband).
Proof.
  intros Hd. unfold direction_of.
  destruct (Qlt_bool deadband edge) eqn:Hyes.
  - apply Qlt_bool_iff in Hyes.
    split; [tauto |]. split; (split; [discriminate |]); intros; exfalso; lra.
  - apply Qlt_bool_false_iff in Hyes.
    destruct (Qlt_bool edge (- deadband)) eqn:Hno.
    + apply Qlt_bool_iff in Hno.
      split; [split; [discriminate | intros; exfalso; lra] |].
      split; [tauto |]. split; [discriminate | intros; exfalso; lra].
    + apply Qlt_bool_false_iff in Hno.
      split; [split; [discriminate | intros; exfalso; lra] |].
      split; [split; [discriminate | intros; exfalso; lra] |].
      split; [intros _; split; assumption | reflexivity].
Qed.

(** C3: with a deadband that is not negative, every prediction of a batch
    has edge = predicted probability - current price, and its direction
    is buy_yes exactly when the edge exceeds the deadband, buy_no exactly
    when it is below the negated deadband, hold exactly in between. *)
Theorem direction_follows_edge (o : Orchestrator) (markets : list Market) :
  0 <= deadband o ->
  Forall (fun p =>
            edge p = predicted_probability p - pred_current_price p
            /\ (direction p = buy_yes <-> deadband o < edge p)
            /\ (direction p = buy_no <-> edge p < - deadband o)
            /\ (direction p = hold <-> - deadband o <= edge p /\ edge p <= deadband o))
    (analyze_markets o markets).
Proof.
  intros Hd. induction markets as [| m rest IH]; simpl; constructor; [| exact IH].
  split; [reflexivity |]. cbn [direction edge analyze].
  now apply direction_of_spec.
Qed.

End OrchestratorFacts.

Example demo_predictions :
  List.map (fun p => (Engine.agent_name p, Engine.direction p))
    (Engine.analyze_markets demo_orchestrator demo_markets)
  = [ ("PoliticsAgent", Engine.buy_yes); ("CryptoAgent", Engine.buy_no);
      ("GeneralAgent", Engine.hold) ].
Proof. reflexivity. Qed.

Lemma direction_follows_edge_witness :
  Forall (fun p =>
            Engine.edge p = (Engine.predicted_probability p - Engine.pred_current_price p)%Q
            /\ (Engine.direction p = Engine.buy_yes <-> (0.05 < Engine.edge p)%Q)
            /\ (Engine.direction p = Engine.buy_no <-> (Engine.edge p < - 0.05)%Q)
            /\ (Engine.direction p = Engine.hold <->
                (- 0.05 <= Engine.edge p)%Q /\ (Engine.edge p <= 0.05)%Q))
    (Engine.analyze_markets demo_orchestrator demo_markets).
Proof.
  apply (direction_follows_edge demo_orchestrator demo_markets). discriminate.
Defined.

Section ListingFacts.
Import Engine.
Local Open Scope Q_scope.

Lemma filter_twice {A : Type} (f g : A -> bool) (l : list A) :
  List.filter g (List.filter f l) = List.filter (fun x => f x && g x) l.
Proof.
  induction l as [| x l IH]; simpl; [reflexivity |].
  destruct (f x); simpl; [destruct (g x) |]; now rewrite IH.
Qed.

Lemma filter_optional {A B : Type} (o : option B) (f : B -> A -> bool) (l : list A) :
  match o with Some b => List.filter (f b) l | None => l end
  = List.filter (fun x => match o with Some b => f b x | None => true end) l.
Proof.
  destruct o; [reflexivity |].
  induction l as [| x l IH]; simpl; congruence.
Qed.

Lemma filter_sublist {A : Type} (f : A -> bool) (l : list A) :
  sublist (List.filter f l) l.
Proof.
  induction l as [| x l IH]; simpl; [constructor |].
  destruct (f x); now constructor.
Qed.

Lemma list_markets_filter (q : MarketQuery) (markets : list Market) :
  list_markets q markets
  = firstn (default DEFAULT_LIMIT (q_limit q))
      (skipn (default 0%nat (q_offset q)) (List.filter (passes q) markets)).
Proof.
  unfold list_markets.
  rewrite (filter_optional (q_min_volume q) (fun v m => Qle_bool v (volume_24h m))).
  rewrite (filter_optional (q_min_score q) (fun s m => Qle_bool s (edge_score m))).
  rewrite (filter_optional (q_category q) (fun c m => bool_decide (category m = c))).
  rewrite !filter_twice. do 2 f_equal.
  apply List.filter_ext. intros m. unfold passes. now rewrite andb_assoc.
Qed.

Lemma passes_iff (q : MarketQuery) (m : Market) :
  passes q m = true <->
  (forall c, q_category q = Some c -> category m = c)
  /\ (forall s, q_min_score q = Some s -> s <= edge_score m)
  /\ (forall v, q_min_volume q = Some v -> v <= volume_24h m).
Proof.
  unfold passes. rewrite !andb_true_iff. split.
  - intros [[Hc Hs] Hv]. split; [| split].
    + intros c Hq. rewrite Hq in Hc. now apply bool_decide_eq_true in Hc.
    + intros s Hq. rewrite Hq in Hs. now apply Qle_bool_iff.
    + intros v Hq. rewrite Hq in Hv. now apply Qle_bool_iff.
  - intros (Hc & Hs & Hv). split; [split |].
    + destruct (q_category q) as [c |]; [| reflexivity].
      apply bool_decide_eq_true. now apply Hc.
    + destruct (q_min_score q) as [s |]; [| reflexivity].
      apply Qle_bool_iff. now apply Hs.
    + destruct (q_min_volume q) as [v |]; [| reflexivity].
      apply Qle_bool_iff. now apply Hv.
Qed.

(** C5: the listing returns the records that pass every supplied filter
    (an omitted filter passes everything, a minimum is met by equality),
    in the order of the collection, cut to the page after filtering; with
    limit 10, no offset and no filter a batch of 50 gives its first 10
    records. *)
Theorem list_markets_semantics (q : MarketQuery) (markets : list Market) :
  list_markets q markets
  = firstn (default DEFAULT_LIMIT (q_limit q))
      (skipn (default 0%nat (q_offset q)) (List.filter (passes q) markets))
  /\ (forall m, passes q m = true <->
        (forall c, q_category q = Some c -> category m = c)
        /\ (forall s, q_min_score q = Some s -> s <= edge_score m)
        /\ (forall v, q_min_volume q = Some v -> v <= volume_24h m))
  /\ sublist (list_markets q markets) markets
  /\ length (list_markets q markets)
     = Nat.min (default DEFAULT_LIMIT (q_limit q))
         (length (List.filter (passes q) markets) - default 0%nat (q_offset q))
  /\ (q_offset q = None -> q_limit q = Some 10%nat ->
      list_markets q markets = firstn 10 (List.filter (passes q) markets))
  /\ (q_category q = None -> q_min_score q = None -> q_min_volume q = None ->
      q_offset q = None -> q_limit q = Some 10%nat -> length markets = 50%nat ->
      list_markets q markets = firstn 10 markets
      /\ length (list_markets q markets) = 10%nat).
Proof.
  split; [apply list_markets_filter |].
  split; [apply passes_iff |].
  rewrite list_markets_filter.
  split.
  { etransitivity; [apply sublist_take |].
    etransitivity; [apply sublist_drop | apply filter_sublist]. }
  split; [now rewrite length_firstn, length_skipn |].
  split; [intros -> ->; reflexivity |].
  intros Hc Hs Hv -> -> Hlen. cbn [default skipn].
  assert (Hall : List.filter (passes q) markets = markets).
  { unfold passes. rewrite Hc, Hs, Hv. cbn.
    clear. induction markets as [| m l IH]; simpl; congruence. }
  rewrite Hall. split; [reflexivity |].
  rewrite length_firstn. change (drop 0 markets) with markets.
  rewrite Hlen. reflexivity.
Qed.

End ListingFacts.

Lemma list_markets_semantics_witness :
  Engine.list_markets first_ten fifty_markets = firstn 10 fifty_markets
  /\ length (Engine.list_markets first_ten fifty_markets) = 10%nat.
Proof.
  destruct (list_markets_semantics first_ten fifty_markets)
    as (_ & _ & _ & _ & _ & Hten).
  apply Hten; reflexivity.
Defined.

(** Filters combine: politics or crypto markets scoring at least 65. *)
Example list_markets_filtered :
  List.map Engine.market_id
    (Engine.list_markets
       {| Engine.q_category := None; Engine.q_min_score := Some 65%Q;
          Engine.q_min_volume := Some 3000%Q; Engine.q_limit := None;
          Engine.q_offset := None |}
       demo_markets)
  = ["m1"; "m2"].
Proof. reflexivity. Qed.

(** * Further properties of the front end *)

(** ** The query string *)

Section QueryFacts.
Import Js Client ClientMore.

Lemma count_char_append (c : ascii) (s1 s2 : string) :
  count_char c (s1 +:+ s2) = (count_char c s1 + count_char c s2)%nat.
Proof. induction s1 as [| a s1 IH]; simpl; [reflexivity |]. rewrite IH. lia. Qed.

Lemma all_chars_append (p : ascii -> bool) (s1 s2 : string) :
  all_chars p (s1 +:+ s2) = all_chars p s1 && all_chars p s2.
Proof.
  induction s1 as [| a s1 IH]; simpl; [reflexivity |].
  rewrite IH. now rewrite andb_assoc.
Qed.

Lemma percent_encode_safe (a : ascii) : all_chars query_safe (percent_encode a) = true.
Proof. destruct a as [[] [] [] [] [] [] [] []]; reflexivity. Qed.

Lemma urlencode_safe (s : string) : all_chars query_safe (urlencode s) = true.
Proof.
  induction s as [| a s IH]; [reflexivity |].
  cbn [urlencode]. rewrite all_chars_append, IH, andb_true_r.
  destruct (Ascii.eqb a " "); [reflexivity |].
  destruct (unreserved a) eqn:Ha; [| apply percent_encode_safe].
  cbn. unfold query_safe. now rewrite Ha.
Qed.

Lemma safe_count (c : ascii) (s : string) :
  query_safe c = false -> all_chars query_safe s = true -> count_char c s = 0%nat.
Proof.
  intros Hc. induction s as [| a s IH]; [reflexivity |].
  cbn. intros Hs. apply andb_true_iff in Hs as [Ha Hs].
  rewrite (IH Hs). destruct (Ascii.eqb_spec a c) as [-> |]; [congruence | reflexivity].
Qed.

Lemma urlencode_count (c : ascii) (s : string) :
  query_safe c = false -> count_char c (urlencode s) = 0%nat.
Proof. intros Hc. apply safe_count; [assumption | apply urlencode_safe]. Qed.

Lemma pair_count (c : ascii) (kv : string * string) :
  query_safe c = false ->
  count_char c (urlencode (fst kv) +:+ "=" +:+ urlencode (snd kv))
  = if Ascii.eqb "=" c then 1%nat else 0%nat.
Proof.
  intros Hc. rewrite !count_char_append, !urlencode_count by assumption.
  cbn. lia.
Qed.

Lemma join_count (c : ascii) (l : list string) :
  count_char c (join "&" l)
  = (list_sum (List.map (count_char c) l)
     + (if Ascii.eqb "&" c then length l - 1 else 0))%nat.
Proof.
  induction l as [| x rest IH]; [now destruct (Ascii.eqb "&" c) |].
  destruct rest as [| y rest].
  - cbn [join List.map list_sum fold_right length]. destruct (Ascii.eqb "&" c); lia.
  - change (join "&" (x :: y :: rest)) with (x +:+ "&" +:+ join "&" (y :: rest)).
    rewrite !count_char_append, IH. cbn [count_char List.map list_sum fold_right length].
    destruct (Ascii.eqb "&" c); lia.
Qed.

Lemma params_toString_count (c : ascii) (params : URLSearchParams) :
  query_safe c = false ->
  count_char c (params_toString params)
  = ((if Ascii.eqb "=" c then length params else 0)
     + (if Ascii.eqb "&" c then length params - 1 else 0))%nat.
Proof.
  intros Hc. unfold params_toString. rewrite join_count, length_map. f_equal.
  induction params as [| kv rest IH]; [now destruct (Ascii.eqb "=" c) |].
  cbn [List.map list_sum fold_right length]. fold (list_sum (List.map (count_char c)
    (List.map (fun kv => urlencode (fst kv) +:+ "=" +:+ urlencode (snd kv)) rest))).
  rewrite IH, (pair_count c kv Hc).
  destruct (Ascii.eqb "=" c); reflexivity.
Qed.

Lemma params_toString_empty (params : URLSearchParams) :
  string_truthy (params_toString params) = false <-> params = [].
Proof.
  split; [| intros ->; reflexivity].
  destruct params as [| kv rest]; [reflexivity |].
  unfold params_toString. cbn [List.map join].
  destruct rest as [| kv' rest]; cbn [List.map];
    destruct (urlencode (fst kv)); discriminate.
Qed.

(** X1: whatever the names and values appended, the serialized query has
    one [=] per parameter and one [&] between two parameters, and no [?],
    [#], [/] or space at all; the path gets a [?] exactly when there is a
    parameter. A filter value cannot add a parameter or end the query. *)
Theorem query_string_shape (path : string) (params : URLSearchParams) :
  count_char "=" (params_toString params) = length params
  /\ count_char "&" (params_toString params) = (length params - 1)%nat
  /\ count_char "?" (params_toString params) = 0%nat
  /\ count_char "#" (params_toString params) = 0%nat
  /\ count_char "/" (params_toString params) = 0%nat
  /\ count_char " " (params_toString params) = 0%nat
  /\ count_char "?" (with_query path params)
     = (count_char "?" path + match params with [] => 0 | _ => 1 end)%nat.
Proof.
  split; [now rewrite params_toString_count |].
  split; [now rewrite params_toString_count |].
  split; [now rewrite params_toString_count |].
  split; [now rewrite params_toString_count |].
  split; [now rewrite params_toString_count |].
  split; [now rewrite params_toString_count |].
  unfold with_query. rewrite count_char_append.
  destruct params as [| kv rest]; [reflexivity |].
  destruct (string_truthy (params_toString (kv :: rest))) eqn:Hq.
  - rewrite count_char_append, params_toString_count by reflexivity. reflexivity.
  - apply params_toString_empty in Hq. discriminate.
Qed.

End QueryFacts.

Section MoreClientFacts.
Import Js Client ClientMore.
Context {num : Type} `{JsNumber num}.



Lemma is_defined_iff (v : value num) : is_defined v = true <-> v <> VUndefined.
Proof. destruct v; cbn; split; congruence. Qed.

Lemma refreshData_query_sendable (a : RefreshArgs num) :
  sendable (maxMarkets a) && sendable (refresh_minVolume a)
  && converts (fetchOrderbooks a) = true ->
  refreshData_query a = Resolved (refreshData_params a).
Proof.
  rewrite !andb_true_iff. intros ((H1 & H2) & H3).
  unfold refreshData_query, refreshData_params.
  rewrite (try_append_if_sendable _ _ _ H1), bind_Resolved,
    (try_append_if_sendable _ _ _ H2), bind_Resolved, !append_if_entry.
  destruct (is_defined (fetchOrderbooks a)); [| reflexivity].
  unfold try_append, append. now rewrite (ToString_converts _ H3).
Qed.

Lemma refreshData_query_resolved (a : RefreshArgs num) params :
  refreshData_query a = Resolved params -> params = refreshData_params a.
Proof.
  unfold refreshData_query, refreshData_params.
  destruct (try_append_if [] "max_markets" (maxMarkets a)) as [p1 | e] eqn:H1;
    [rewrite bind_Resolved | discriminate].
  apply try_append_if_resolved in H1 as ->.
  destruct (try_append_if _ "min_volume" (refresh_minVolume a)) as [p2 | e] eqn:H2;
    [rewrite bind_Resolved | discriminate].
  apply try_append_if_resolved in H2 as ->.
  destruct (is_defined (fetchOrderbooks a)); [| congruence].
  unfold try_append, append.
  destruct (converts (fetchOrderbooks a)) eqn:Hc.
  - rewrite (ToString_converts _ Hc), bind_Resolved. congruence.
  - rewrite (ToString_throws _ Hc). discriminate.
Qed.

(** X3: [refreshData] appends max_markets and min_volume exactly when
    they are truthy, and fetch_orderbooks exactly when it is not
    [undefined]: a [false], [0] or [null] given for it is sent, as its
    string form. The request is a POST of the API base, [/refresh] and
    the query; a value to be sent that has no string form makes the call
    throw before anything is requested. *)
Theorem refreshData_parameters (base : value num) (a : RefreshArgs num) :
  (forall key s,
      In (key, s) (refreshData_params a) <->
      (key = "max_markets" /\ s = to_string (maxMarkets a) /\ truthy (maxMarkets a) = true)
      \/ (key = "min_volume" /\ s = to_string (refresh_minVolume a)
          /\ truthy (refresh_minVolume a) = true)
      \/ (key = "fetch_orderbooks" /\ s = to_string (fetchOrderbooks a)
          /\ fetchOrderbooks a <> VUndefined))
  /\ (sendable (maxMarkets a) && sendable (refresh_minVolume a)
      && converts (fetchOrderbooks a) = true ->
        refreshData_query a = Resolved (refreshData_params a)
        /\ (forall fetch,
              refreshData base fetch a
              = request base fetch (with_query "/refresh" (refreshData_params a)) POST)
        /\ (converts (API_BASE base) = true ->
              refreshData base unreachable a
              = Rejected (PlatformError
                  ("POST " +:+ to_string (API_BASE base)
                   +:+ with_query "/refresh" (refreshData_params a)))))
  /\ (sendable (maxMarkets a) && sendable (refresh_minVolume a)
      && converts (fetchOrderbooks a) = false ->
        forall fetch,
          refreshData base fetch a
          = Rejected (TypeError "Cannot convert object to primitive value")).
Proof.
  split; [| split].
  - intros key s. unfold refreshData_params. rewrite <- is_defined_iff.
    destruct (is_defined (fetchOrderbooks a)) eqn:Hd.
    + unfold append. rewrite in_app_iff, !in_append_if. cbn [In].
      intuition (subst; auto; try discriminate; try congruence).
    + rewrite !in_append_if. cbn [In].
      intuition (subst; auto; try discriminate; try congruence).
  - intros Hs. pose proof (refreshData_query_sendable a Hs) as Hq.
    split; [exact Hq |]. split.
    + intros fetch. unfold refreshData. now rewrite Hq, bind_Resolved.
    + intros Hb. unfold refreshData. rewrite Hq, bind_Resolved.
      rewrite (request_unreachable _ _ _ Hb). reflexivity.
  - intros Hs fetch. unfold refreshData, refreshData_query.
    destruct (sendable (maxMarkets a)) eqn:H1;
      [ rewrite (try_append_if_sendable _ _ _ H1), bind_Resolved
      | rewrite (try_append_if_unsendable _ _ _ H1); reflexivity ].
    destruct (sendable (refresh_minVolume a)) eqn:H2;
      [ rewrite (try_append_if_sendable _ _ _ H2), bind_Resolved
      | rewrite (try_append_if_unsendable _ _ _ H2); reflexivity ].
    destruct (converts (fetchOrderbooks a)) eqn:H3; [discriminate Hs |].
    assert (Hd : is_defined (fetchOrderbooks a) = true).
    { destruct (fetchOrderbooks a); try reflexivity. discriminate H3. }
    rewrite Hd. unfold try_append. now rewrite (ToString_throws _ H3).
Qed.

(** X4: [request] never resolves when the request failed. An API base
    with no string form throws before anything is requested; a rejection
    of [fetch] is passed on as it is; and a response that is not ok
    always ends in a rejection: a [TypeError] when its body is JSON
    [null] or its [detail] has no string form, and an [Error]
    otherwise. *)
Theorem request_failure_paths (base : value num)
    (fetch : string -> RequestInit -> outcome (Response num))
    (endpoint : string) (options : RequestInit) :
  (converts (API_BASE base) = false ->
     request base fetch endpoint options
     = Rejected (TypeError "Cannot convert object to primitive value"))
  /\ (converts (API_BASE base) = true ->
      (forall e, fetch (request_url base endpoint) (fetch_init options) = Rejected e ->
                 request base fetch endpoint options = Rejected e)
      /\ (forall response,
            fetch (request_url base endpoint) (fetch_init options) = Resolved response ->
            ok response = false ->
            (forall body, request base fetch endpoint options <> Resolved body)
            /\ (nullish (error_body response) = true ->
                exists message,
                  request base fetch endpoint options = Rejected (TypeError message))
            /\ (nullish (error_body response) = false ->
                converts (detail_of (error_body response)) = true ->
                request base fetch endpoint options
                = Rejected (Error (failure_message response)))
            /\ (nullish (error_body response) = false ->
                converts (detail_of (error_body response)) = false ->
                request base fetch endpoint options
                = Rejected (TypeError "Cannot convert object to primitive value")))).
Proof.
  split.
  - intros Hb. unfold request. now rewrite (ToString_throws _ Hb).
  - intros Hb. split.
    + intros e He. unfold request. rewrite (ToString_converts _ Hb), bind_Resolved.
      fold (request_url base endpoint). now rewrite He.
    + intros response Hfetch Hok.
      assert (Hnull : nullish (error_body response) = true ->
                      exists message,
                        request base fetch endpoint options
                        = Rejected (TypeError message)).
      { intros Hn. rewrite (request_not_ok _ _ _ _ _ Hb Hfetch Hok).
        destruct (error_body response); try discriminate Hn; cbn; eauto. }
      split; [| split; [exact Hnull | split]].
      * intros body Hres.
        destruct (nullish (error_body response)) eqn:Hn.
        -- destruct (Hnull eq_refl) as [message Hm]. congruence.
        -- destruct (converts (detail_of (error_body response))) eqn:Hd.
           ++ rewrite (request_message _ _ _ _ _ Hb Hfetch Hok Hn Hd) in Hres.
              discriminate.
           ++ rewrite (request_message_throws _ _ _ _ _ Hb Hfetch Hok Hn Hd) in Hres.
              discriminate.
      * intros Hn Hd. exact (request_message _ _ _ _ _ Hb Hfetch Hok Hn Hd).
      * intros Hn Hd. exact (request_message_throws _ _ _ _ _ Hb Hfetch Hok Hn Hd).
Qed.

End MoreClientFacts.

(** The dashboard's own refresh request, one that asks for no order
    books, and a failed response whose body is [null]. *)
Definition dashboard_refresh : ClientMore.RefreshArgs Z :=
  {| ClientMore.maxMarkets := Js.VNum 100%Z;
     ClientMore.refresh_minVolume := Js.VNum 1000%Z;
     ClientMore.fetchOrderbooks := Js.VUndefined |}.

Definition refresh_without_orderbooks : ClientMore.RefreshArgs Z :=
  {| ClientMore.maxMarkets := Js.VNum 0%Z;
     ClientMore.refresh_minVolume := Js.VUndefined;
     ClientMore.fetchOrderbooks := Js.VBool false |}.

Definition null_body_response : Client.Response Z :=
  {| Client.status := 500%N; Client.json := Js.Resolved Js.VNull |}.

Lemma refreshData_parameters_witness :
  In ("fetch_orderbooks", "false") (ClientMore.refreshData_params refresh_without_orderbooks)
  /\ ~ In ("max_markets", "0") (ClientMore.refreshData_params refresh_without_orderbooks)
  /\ ClientMore.refreshData Js.VUndefined unreachable refresh_without_orderbooks
     = Js.Rejected (Js.PlatformError "POST /api/refresh?fetch_orderbooks=false")
  /\ ClientMore.refreshData Js.VUndefined unreachable dashboard_refresh
     = Js.Rejected
         (Js.PlatformError "POST /api/refresh?max_markets=100&min_volume=1000").
Proof.
  destruct (refreshData_parameters Js.VUndefined refresh_without_orderbooks)
    as (Hin & Hsend & _).
  split; [| split; [| split]].
  - apply Hin. right. right. repeat split. discriminate.
  - intros Hm. apply Hin in Hm.
    destruct Hm as [(_ & _ & Ht) | [(Hk & _) | (Hk & _)]]; discriminate.
  - destruct (Hsend eq_refl) as (_ & _ & Hurl). exact (Hurl eq_refl).
  - destruct (refreshData_parameters Js.VUndefined dashboard_refresh)
      as (_ & Hsend' & _).
    destruct (Hsend' eq_refl) as (_ & _ & Hurl). exact (Hurl eq_refl).
Defined.

Example refreshData_urls :
  Client.request_url Js.VUndefined (ClientMore.refreshData_endpoint dashboard_refresh)
  = "/api/refresh?max_markets=100&min_volume=1000"
  /\ Client.request_url Js.VUndefined
       (ClientMore.refreshData_endpoint refresh_without_orderbooks)
     = "/api/refresh?fetch_orderbooks=false".
Proof. split; reflexivity. Qed.

Lemma request_failure_paths_witness :
  (exists message,
      Client.request Js.VUndefined (fun _ _ => Js.Resolved null_body_response)
        "/status" Client.no_options
      = Js.Rejected (Js.TypeError message))
  /\ Client.request Js.VUndefined (fun _ _ => Js.Resolved unprintable_detail_response)
       "/status" Client.no_options
     = Js.Rejected (Js.TypeError "Cannot convert object to primitive value")
  /\ Client.request (Js.VObj [("toString", Js.VNull)])
       (fun _ _ => Js.Resolved null_body_response) "/status" Client.no_options
     = Js.Rejected (Js.TypeError "Cannot convert object to primitive value").
Proof.
  split; [| split].
  - destruct (request_failure_paths (num := Z) Js.VUndefined
                (fun _ _ => Js.Resolved null_body_response) "/status" Client.no_options)
      as [_ Hfail].
    destruct (Hfail eq_refl) as [_ Hresp].
    destruct (Hresp null_body_response eq_refl eq_refl) as (_ & Hnull & _).
    exact (Hnull eq_refl).
  - destruct (request_failure_paths (num := Z) Js.VUndefined
                (fun _ _ => Js.Resolved unprintable_detail_response) "/status"
                Client.no_options)
      as [_ Hfail].
    destruct (Hfail eq_refl) as [_ Hresp].
    destruct (Hresp unprintable_detail_response eq_refl eq_refl) as (_ & _ & _ & Hthrow).
    exact (Hthrow eq_refl eq_refl).
  - destruct (request_failure_paths (num := Z) (Js.VObj [("toString", Js.VNull)])
                (fun _ _ => Js.Resolved null_body_response) "/status" Client.no_options)
      as [Hbase _].
    exact (Hbase eq_refl).
Defined.

(** ** Badges of the cards *)

(** The property names every object literal inherits from
    [Object.prototype]; the tables are modelled by their own properties,
    so what follows is stated for the other strings. *)
Definition inherited_keys : list string :=
  [ "constructor"; "__proto__"; "hasOwnProperty"; "isPrototypeOf";
    "propertyIsEnumerable"; "toLocaleString"; "toString"; "valueOf";
    "__defineGetter__"; "__defineSetter__"; "__lookupGetter__";
    "__lookupSetter__" ].

Section BadgeFacts.

Ltac by_key key k :=
  destruct (decide (key = k)) as [-> |];
    [vm_compute; intuition (auto; try discriminate; congruence) |].

(** X5: for every string given as edge type that is no inherited property
    name, [OpportunityCard] takes the table's label and colour exactly
    when the string is one of the table's five keys, none of which is
    shown gray, and otherwise shows the string itself on gray; the risk
    badge is green, yellow or red for low, medium and high and gray for
    anything else. *)
Theorem opportunity_badges (edge_type risk_level : string) :
  ~ In edge_type inherited_keys -> ~ In risk_level inherited_keys ->
  (OpportunityCard.is_fallback edge_type = false <->
   In edge_type ["arbitrage"; "mispricing"; "correlation"; "volume_signal";
                 "liquidity_gap"])
  /\ (OpportunityCard.is_fallback edge_type = true ->
      OpportunityCard.typeInfo edge_type
      = {| OpportunityCard.label := edge_type; OpportunityCard.color := "gray" |})
  /\ (OpportunityCard.is_fallback edge_type = false ->
      OpportunityCard.color (OpportunityCard.typeInfo edge_type) <> "gray"
      /\ OpportunityCard.label (OpportunityCard.typeInfo edge_type) <> edge_type)
  /\ (OpportunityCard.riskColor risk_level = "gray" <->
      ~ In risk_level ["low"; "medium"; "high"])
  /\ In (OpportunityCard.riskColor risk_level) ["green"; "yellow"; "red"; "gray"].
Proof.
  intros _ _.
  split; [| split; [| split; [| split]]].
  - by_key edge_type "arbitrage". by_key edge_type "mispricing".
    by_key edge_type "correlation". by_key edge_type "volume_signal".
    by_key edge_type "liquidity_gap".
    unfold OpportunityCard.is_fallback, OpportunityCard.EDGE_TYPE_LABELS.
    cbn [list_to_map foldr uncurry fst snd].
    rewrite !lookup_insert_ne, lookup_empty by congruence.
    cbn [In]. intuition congruence.
  - unfold OpportunityCard.is_fallback, OpportunityCard.typeInfo.
    destruct (OpportunityCard.EDGE_TYPE_LABELS !! edge_type); [discriminate | reflexivity].
  - by_key edge_type "arbitrage". by_key edge_type "mispricing".
    by_key edge_type "correlation". by_key edge_type "volume_signal".
    by_key edge_type "liquidity_gap".
    unfold OpportunityCard.is_fallback, OpportunityCard.EDGE_TYPE_LABELS.
    cbn [list_to_map foldr uncurry fst snd].
    rewrite !lookup_insert_ne, lookup_empty by congruence. discriminate.
  - by_key risk_level "low". by_key risk_level "medium". by_key risk_level "high".
    unfold OpportunityCard.riskColor, OpportunityCard.RISK_COLORS.
    cbn [list_to_map foldr uncurry fst snd].
    rewrite !lookup_insert_ne, lookup_empty by congruence.
    cbn [In]. intuition congruence.
  - by_key risk_level "low". by_key risk_level "medium". by_key risk_level "high".
    unfold OpportunityCard.riskColor, OpportunityCard.RISK_COLORS.
    cbn [list_to_map foldr uncurry fst snd].
    rewrite !lookup_insert_ne, lookup_empty by congruence.
    cbn [In]. tauto.
Qed.

End BadgeFacts.

Section MoreBadgeFacts.

Ltac by_key key k :=
  destruct (decide (key = k)) as [-> |];
    [vm_compute; intuition (auto; try discriminate; congruence) |].

(** X6: for every string given as category that is no inherited property
    name, [MarketCard] colours the badge blue, green, yellow or purple
    exactly for politics, sports, crypto, economics, entertainment and
    science, and gray for other and for any string that is no key of the
    table. *)
Theorem category_badge (category : string) :
  ~ In category inherited_keys ->
  In (MarketCard.categoryColor category) ["blue"; "green"; "yellow"; "purple"; "gray"]
  /\ (MarketCard.categoryColor category <> "gray" <->
      In category ["politics"; "sports"; "crypto"; "economics"; "entertainment";
                   "science"]).
Proof.
  intros _.
  by_key category "politics". by_key category "sports". by_key category "crypto".
  by_key category "economics". by_key category "entertainment".
  by_key category "science". by_key category "other".
  unfold MarketCard.categoryColor, MarketCard.CATEGORY_COLORS.
  cbn [list_to_map foldr uncurry fst snd].
  rewrite !lookup_insert_ne, lookup_empty by congruence.
  cbn [In]. intuition congruence.
Qed.

Lemma edgePositive_iff (edge : Q) : PredictionCard.edgePositive edge = true <-> (0 < edge)%Q.
Proof.
  unfold PredictionCard.edgePositive. rewrite negb_true_iff. split.
  - intros Hf. apply Qnot_le_lt. intros Hle. apply Qle_bool_iff in Hle. congruence.
  - intros Hlt. destruct (Qle_bool edge 0) eqn:Hle; [| reflexivity].
    apply Qle_bool_iff in Hle. exfalso. apply (Qlt_not_le _ _ Hlt Hle).
Qed.

(** X7: for every string given as direction that is no inherited property
    name, [PredictionCard] takes the table's label and colour for
    buy_yes, buy_no and hold and shows any other string itself on gray,
    so the badge is gray exactly when the direction is neither buy_yes
    nor buy_no; the edge is green with a plus sign exactly when it is
    positive, and red without a sign when it is zero or negative. *)
Theorem prediction_badges (direction : string) (edge : Q) :
  ~ In direction inherited_keys ->
  (~ In direction ["buy_yes"; "buy_no"; "hold"] ->
   PredictionCard.directionInfo direction
   = {| PredictionCard.label := direction; PredictionCard.color := "gray" |})
  /\ (PredictionCard.color (PredictionCard.directionInfo direction) = "gray" <->
      direction <> "buy_yes" /\ direction <> "buy_no")
  /\ (In direction ["buy_yes"; "buy_no"; "hold"] ->
      In (PredictionCard.label (PredictionCard.directionInfo direction))
        ["Buy YES"; "Buy NO"; "Hold"])
  /\ (PredictionCard.edge_class edge = "text-green" <-> (0 < edge)%Q)
  /\ (PredictionCard.edge_class edge = "text-red" <-> (edge <= 0)%Q)
  /\ (PredictionCard.edge_sign edge = "+" <-> (0 < edge)%Q).
Proof.
  intros _.
  assert (Hother : direction <> "buy_yes" -> direction <> "buy_no" ->
                   direction <> "hold" ->
                   PredictionCard.DIRECTION_INFO !! direction = None).
  { intros H1 H2 H3. unfold PredictionCard.DIRECTION_INFO.
    cbn [list_to_map foldr uncurry fst snd].
    now rewrite !lookup_insert_ne, lookup_empty by congruence. }
  split; [| split; [| split; [| split; [| split]]]].
  - intros Hnot. unfold PredictionCard.directionInfo.
    rewrite Hother; [reflexivity | | |]; intros ->; apply Hnot; cbn; auto.
  - by_key direction "buy_yes". by_key direction "buy_no". by_key direction "hold".
    unfold PredictionCard.directionInfo. rewrite Hother by assumption.
    cbn. tauto.
  - by_key direction "buy_yes". by_key direction "buy_no". by_key direction "hold".
    cbn [In]. intuition congruence.
  - unfold PredictionCard.edge_class. rewrite <- edgePositive_iff.
    destruct (PredictionCard.edgePositive edge); split; congruence.
  - unfold PredictionCard.edge_class.
    destruct (PredictionCard.edgePositive edge) eqn:Hp.
    + apply edgePositive_iff in Hp. split; [discriminate |].
      intros Hle. exfalso. apply (Qlt_not_le _ _ Hp Hle).
    + split; [intros _ | reflexivity].
      apply Qnot_lt_le. intros Hlt. apply edgePositive_iff in Hlt. congruence.
  - unfold PredictionCard.edge_sign. rewrite <- edgePositive_iff.
    destruct (PredictionCard.edgePositive edge); split; congruence.
Qed.

End MoreBadgeFacts.

(** ** App, continued *)

Section MoreAppFacts.
Import App.

(** What the tabs and the stat cards show. *)
Definition shown (s : State) : Data :=
  {| statsData := stats s; marketsData := markets s;
     oppsData := opportunities s; predsData := predictions s |}.

(** The data of the fetch that was fulfilled last, [d] when none was. *)
Fixpoint last_fetched (d : Data) (es : list event) : Data :=
  match es with
  | [] => d
  | FetchSettled (Fulfilled d') :: rest => last_fetched d' rest
  | _ :: rest => last_fetched d rest
  end.

Lemma step_shown (s s' : State) (e : event) :
  step s e = Some s' ->
  shown s' = match e with
             | FetchSettled (Fulfilled d) => d
             | _ => shown s
             end.
Proof.
  destruct e as [t | | | | t | r | r | r | t r]; simpl.
  - intros Heq. now inversion Heq.
  - destruct (loadDemo_disabled s); [discriminate |]. intros Heq. now inversion Heq.
  - destruct (loadDemoData_rendered s); [| discriminate]. intros Heq. now inversion Heq.
  - destruct (refresh_disabled s); [discriminate |]. intros Heq. now inversion Heq.
  - destruct (existsb _ _); [| discriminate]. intros Heq. now inversion Heq.
  - destruct (resume AwaitFetch s) as [s1 |] eqn:Hres; simpl; [| discriminate].
    apply resume_inv in Hres as (ts & _ & ->). intros Heq. inversion Heq.
    destruct r as [[] | message]; reflexivity.
  - destruct (resume AwaitDemo s) as [s1 |] eqn:Hres; simpl; [| discriminate].
    apply resume_inv in Hres as (ts & _ & ->). intros Heq. inversion Heq.
    destruct r; reflexivity.
  - destruct (resume AwaitRefresh s) as [s1 |] eqn:Hres; simpl; [| discriminate].
    apply resume_inv in Hres as (ts & _ & ->). intros Heq. inversion Heq.
    destruct r; reflexivity.
  - destruct (resume (AwaitStatus t) s) as [s1 |] eqn:Hres; simpl; [| discriminate].
    apply resume_inv in Hres as (ts & _ & ->). intros Heq. inversion Heq.
    destruct r as [[|] | message]; reflexivity.
Qed.

(** X9: whatever happens, the stats and the three collections on screen
    are those of the fetch that was fulfilled last, and the ones the
    component had before when none was: a failed fetch, a failed refresh
    or a failed demo load never empties or changes them. *)
Theorem shown_is_last_fetched (s s' : State) (es : list event) :
  run s es = Some s' -> shown s' = last_fetched (shown s) es.
Proof.
  revert s. induction es as [| e es IH]; intros s; simpl.
  - intros Heq. now inversion Heq.
  - destruct (step s e) as [s1 |] eqn:Hstep; simpl; [| discriminate].
    intros Hrun. rewrite (IH _ Hrun), (step_shown _ _ _ Hstep).
    destruct e as [| | | | | [d |] | | |]; reflexivity.
Qed.

Lemma remove_first_other (t u : task) (ts ts' : list task) :
  remove_first t ts = Some ts' -> u <> t -> (In u ts <-> In u ts').
Proof.
  revert ts'. induction ts as [| x ts IH]; intros ts'; simpl; [discriminate |].
  destruct (decide (x = t)) as [-> | Hne].
  - intros Heq Hu. inversion Heq; subst. split; [| now right].
    intros [Hx | Hin]; [congruence | assumption].
  - destruct (remove_first t ts) as [ts1 |]; simpl; [| discriminate].
    intros Heq Hu. inversion Heq; subst. simpl. rewrite (IH ts1 eq_refl Hu). tauto.
Qed.

Lemma remove_first_subset (t u : task) (ts ts' : list task) :
  remove_first t ts = Some ts' -> In u ts' -> In u ts.
Proof.
  revert ts'. induction ts as [| x ts IH]; intros ts'; simpl; [discriminate |].
  destruct (decide (x = t)) as [-> | Hne].
  - intros Heq Hin. inversion Heq; subst. now right.
  - destruct (remove_first t ts) as [ts1 |]; simpl; [| discriminate].
    intros Heq Hin. inversion Heq; subst. destruct Hin as [-> | Hin]; [now left |].
    right. now apply (IH ts1).
Qed.

(** Something is outstanding behind each spinner. *)
Definition spinners_backed (s : State) : Prop :=
  (refreshing s = true -> In AwaitRefresh (tasks s) \/ timers s <> [])
  /\ (loading s = true -> In AwaitFetch (tasks s) \/ In AwaitDemo (tasks s)).

Lemma step_spinners_backed (s s' : State) (e : event) :
  spinners_backed s -> step s e = Some s' -> spinners_backed s'.
Proof.
  intros [Hr Hl] Hstep.
  destruct e as [t | | | | t | r | r | r | t r]; simpl in Hstep.
  - inversion Hstep; subst. split; assumption.
  - destruct (loadDemo_disabled s); [discriminate |]. inversion Hstep; subst.
    split; simpl; intros Hx.
    + destruct (Hr Hx) as [Hin | Hne]; [left; apply in_or_app; now left | now right].
    + right. apply in_or_app. right. now left.
  - destruct (loadDemoData_rendered s); [| discriminate]. inversion Hstep; subst.
    split; simpl; intros Hx.
    + destruct (Hr Hx) as [Hin | Hne]; [left; apply in_or_app; now left | now right].
    + right. apply in_or_app. right. now left.
  - destruct (refresh_disabled s); [discriminate |]. inversion Hstep; subst.
    split; simpl; intros Hx.
    + left. apply in_or_app. right. now left.
    + destruct (Hl Hx) as [Hin | Hin]; [left | right]; apply in_or_app; now left.
  - destruct (existsb _ _); [| discriminate]. inversion Hstep; subst.
    split; simpl; intros Hx.
    + destruct (Hr Hx) as [Hin | Hne]; [left; apply in_or_app; now left | now right].
    + destruct (Hl Hx) as [Hin | Hin]; [left | right]; apply in_or_app; now left.
  - destruct (resume AwaitFetch s) as [s1 |] eqn:Hres; simpl in Hstep; [| discriminate].
    apply resume_inv in Hres as (ts & Hts & ->). inversion Hstep; subst.
    split; [| destruct r; simpl; discriminate].
    intros Hx. assert (Hx' : refreshing s = true) by (destruct r; exact Hx).
    destruct (Hr Hx') as [Hin | Hne].
    + left. destruct r; simpl;
        now apply (remove_first_other AwaitFetch AwaitRefresh _ _ Hts).
    + right. destruct r; exact Hne.
  - destruct (resume AwaitDemo s) as [s1 |] eqn:Hres; simpl in Hstep; [| discriminate].
    apply resume_inv in Hres as (ts & Hts & ->). inversion Hstep; subst.
    destruct r as [u | message]; split; simpl; intros Hx; try discriminate.
    + destruct (Hr Hx) as [Hin | Hne]; [left | now right].
      apply in_or_app. left.
      now apply (remove_first_other AwaitDemo AwaitRefresh _ _ Hts).
    + left. apply in_or_app. right. now left.
    + destruct (Hr Hx) as [Hin | Hne]; [left | now right].
      now apply (remove_first_other AwaitDemo AwaitRefresh _ _ Hts).
  - destruct (resume AwaitRefresh s) as [s1 |] eqn:Hres; simpl in Hstep; [| discriminate].
    apply resume_inv in Hres as (ts & Hts & ->). inversion Hstep; subst.
    destruct r as [u | message]; split; simpl; intros Hx; try discriminate.
    + right. now destruct (timers s).
    + destruct (Hl Hx) as [Hin | Hin]; [left | right].
      * now apply (remove_first_other AwaitRefresh AwaitFetch _ _ Hts).
      * now apply (remove_first_other AwaitRefresh AwaitDemo _ _ Hts).
    + destruct (Hl Hx) as [Hin | Hin]; [left | right].
      * now apply (remove_first_other AwaitRefresh AwaitFetch _ _ Hts).
      * now apply (remove_first_other AwaitRefresh AwaitDemo _ _ Hts).
  - destruct (resume (AwaitStatus t) s) as [s1 |] eqn:Hres; simpl in Hstep;
      [| discriminate].
    apply resume_inv in Hres as (ts & Hts & ->). inversion Hstep; subst.
    destruct r as [[|] | message]; split; simpl; intros Hx; try discriminate.
    + destruct (Hr Hx) as [Hin | Hne]; [left | now right].
      now apply (remove_first_other (AwaitStatus t) AwaitRefresh _ _ Hts).
    + destruct (Hl Hx) as [Hin | Hin]; [left | right].
      * now apply (remove_first_other (AwaitStatus t) AwaitFetch _ _ Hts).
      * now apply (remove_first_other (AwaitStatus t) AwaitDemo _ _ Hts).
    + left. apply in_or_app. right. now left.
    + destruct (Hl Hx) as [Hin | Hin]; [left | right].
      * now apply (remove_first_other (AwaitStatus t) AwaitFetch _ _ Hts).
      * now apply (remove_first_other (AwaitStatus t) AwaitDemo _ _ Hts).
Qed.

(** X10: in every state the component can reach, a [refreshing] that is
    true has the refresh request outstanding or a poll timer live, and a
    [loading] that is true has a fetch or the demo load outstanding: no
    spinner is left with nothing to end it. *)
Theorem spinners_never_orphaned (s : State) :
  reachable s -> spinners_backed s.
Proof.
  intros [es Hrun].
  assert (Hgen : forall es s0 s1,
            spinners_backed s0 -> run s0 es = Some s1 -> spinners_backed s1).
  { clear. induction es as [| e es IH]; intros s0 s1 H0; simpl.
    - intros Heq. inversion Heq. now subst.
    - destruct (step s0 e) as [s' |] eqn:Hstep; simpl; [| discriminate].
      apply IH. now apply (step_spinners_backed s0 s' e). }
  apply (Hgen es initial s); [| exact Hrun].
  split; simpl; [discriminate |]. intros _. left. now left.
Qed.

End MoreAppFacts.

Section TimerFacts.
Import App.

Lemma remove_first_in (t : task) (ts ts' : list task) :
  remove_first t ts = Some ts' -> In t ts.
Proof.
  revert ts'. induction ts as [| x ts IH]; intros ts'; simpl; [discriminate |].
  destruct (decide (x = t)) as [-> | Hne]; [now left |].
  destruct (remove_first t ts) as [ts1 |]; simpl; [| discriminate].
  intros _. right. now apply (IH ts1).
Qed.

(** Timer ids in use are below the next id to hand out. *)
Definition timers_issued (s : State) : Prop :=
  (forall t, In t (timers s) -> t < next_timer s)
  /\ (forall t, In (AwaitStatus t) (tasks s) -> t < next_timer s).

(** Timer [t] was handed out and is not live. *)
Definition cleared (t : nat) (s : State) : Prop :=
  t < next_timer s /\ ~ In t (timers s).

Lemma step_next_timer (s s' : State) (e : event) :
  step s e = Some s' ->
  next_timer s <= next_timer s'
  /\ (forall t, In t (timers s') -> In t (timers s) \/ t = next_timer s)
  /\ (forall u, In u (tasks s') ->
        In u (tasks s) \/ (exists t, u = AwaitStatus t /\ In t (timers s))
        \/ u = AwaitFetch \/ u = AwaitDemo \/ u = AwaitRefresh).
Proof.
  destruct e as [t | | | | t | r | r | r | t r]; simpl.
  - intros Heq. inversion Heq; subst. simpl. auto.
  - destruct (loadDemo_disabled s); [discriminate |]. intros Heq. inversion Heq; subst.
    simpl. repeat split; auto. intros u Hu. apply in_app_or in Hu as [Hu | [<- | []]]; auto.
  - destruct (loadDemoData_rendered s); [| discriminate]. intros Heq.
    inversion Heq; subst. simpl. repeat split; auto.
    intros u Hu. apply in_app_or in Hu as [Hu | [<- | []]]; auto.
  - destruct (refresh_disabled s); [discriminate |]. intros Heq. inversion Heq; subst.
    simpl. repeat split; auto.
    intros u Hu. apply in_app_or in Hu as [Hu | [<- | []]]; auto 6.
  - destruct (existsb (Nat.eqb t) (timers s)) eqn:Hex; [| discriminate].
    intros Heq. inversion Heq; subst. simpl. repeat split; auto.
    intros u Hu. apply in_app_or in Hu as [Hu | [<- | []]]; auto.
    right. left. exists t. split; [reflexivity |].
    apply existsb_exists in Hex as (x & Hx & Heqb).
    apply Nat.eqb_eq in Heqb. now subst.
  - destruct (resume AwaitFetch s) as [s1 |] eqn:Hres; simpl; [| discriminate].
    apply resume_inv in Hres as (ts & Hts & ->). intros Heq. inversion Heq; subst.
    destruct r; simpl; repeat split; auto; intros u Hu; left;
      now apply (remove_first_subset _ _ _ _ Hts).
  - destruct (resume AwaitDemo s) as [s1 |] eqn:Hres; simpl; [| discriminate].
    apply resume_inv in Hres as (ts & Hts & ->). intros Heq. inversion Heq; subst.
    destruct r; simpl; repeat split; auto; intros u Hu.
    + apply in_app_or in Hu as [Hu | [<- | []]]; auto.
      left. now apply (remove_first_subset _ _ _ _ Hts).
    + left. now apply (remove_first_subset _ _ _ _ Hts).
  - destruct (resume AwaitRefresh s) as [s1 |] eqn:Hres; simpl; [| discriminate].
    apply resume_inv in Hres as (ts & Hts & ->). intros Heq. inversion Heq; subst.
    destruct r; simpl; repeat split; auto.
    + intros t Ht. apply in_app_or in Ht as [Ht | [<- | []]]; auto.
    + intros u Hu. left. now apply (remove_first_subset _ _ _ _ Hts).
    + intros u Hu. left. now apply (remove_first_subset _ _ _ _ Hts).
  - destruct (resume (AwaitStatus t) s) as [s1 |] eqn:Hres; simpl; [| discriminate].
    apply resume_inv in Hres as (ts & Hts & ->). intros Heq. inversion Heq; subst.
    destruct r as [[|] | message]; simpl; repeat split; auto.
    + intros u Hu. left. now apply (remove_first_subset _ _ _ _ Hts).
    + intros x Hx. apply filter_In in Hx as [Hx _]. now left.
    + intros u Hu. apply in_app_or in Hu as [Hu | [<- | []]]; auto.
      left. now apply (remove_first_subset _ _ _ _ Hts).
    + intros x Hx. apply filter_In in Hx as [Hx _]. now left.
    + intros u Hu. left. now apply (remove_first_subset _ _ _ _ Hts).
Qed.

Lemma step_timers_issued (s s' : State) (e : event) :
  timers_issued s -> step s e = Some s' -> timers_issued s'.
Proof.
  intros [Ht Hu] Hstep.
  destruct (step_next_timer s s' e Hstep) as (Hn & Hts & Hus).
  assert (Hfresh : next_timer s < next_timer s' \/ timers s' = timers s
                   \/ forall t, In t (timers s') -> In t (timers s)).
  { destruct e as [t | | | | t | r | r | r | t r]; simpl in Hstep.
    - inversion Hstep; subst. auto.
    - destruct (loadDemo_disabled s); [discriminate |]. inversion Hstep; subst. auto.
    - destruct (loadDemoData_rendered s); [| discriminate]. inversion Hstep; subst. auto.
    - destruct (refresh_disabled s); [discriminate |]. inversion Hstep; subst. auto.
    - destruct (existsb _ _); [| discriminate]. inversion Hstep; subst. auto.
    - destruct (resume AwaitFetch s) as [s1 |] eqn:Hres; simpl in Hstep; [| discriminate].
      apply resume_inv in Hres as (ts & _ & ->). inversion Hstep; subst.
      destruct r; auto.
    - destruct (resume AwaitDemo s) as [s1 |] eqn:Hres; simpl in Hstep; [| discriminate].
      apply resume_inv in Hres as (ts & _ & ->). inversion Hstep; subst.
      destruct r; auto.
    - destruct (resume AwaitRefresh s) as [s1 |] eqn:Hres; simpl in Hstep;
        [| discriminate].
      apply resume_inv in Hres as (ts & _ & ->). inversion Hstep; subst.
      destruct r; simpl; auto.
    - destruct (resume (AwaitStatus t) s) as [s1 |] eqn:Hres; simpl in Hstep;
        [| discriminate].
      apply resume_inv in Hres as (ts & _ & ->). inversion Hstep; subst.
      destruct r as [[|] | message]; simpl; auto;
        right; right; intros x Hx; now apply filter_In in Hx as [Hx _]. }
  split.
  - intros t Hin. destruct Hfresh as [Hlt | [Heq | Hsub]].
    + destruct (Hts t Hin) as [Hold | ->]; [apply Ht in Hold; lia | assumption].
    + rewrite Heq in Hin. apply Ht in Hin. lia.
    + apply Hsub, Ht in Hin. lia.
  - intros t Hin. destruct (Hus _ Hin) as [Hold | [(t' & Heq & Hlive) | Hother]].
    + apply Hu in Hold. lia.
    + inversion Heq; subst. apply Ht in Hlive. lia.
    + destruct Hother as [Hx | [Hx | Hx]]; discriminate.
Qed.

Lemma step_cleared (t : nat) (s s' : State) (e : event) :
  cleared t s -> step s e = Some s' -> cleared t s'.
Proof.
  intros [Hlt Hout] Hstep.
  destruct (step_next_timer s s' e Hstep) as (Hn & Hts & _).
  split; [lia |]. intros Hin. destruct (Hts t Hin) as [Hold | ->]; [auto | lia].
Qed.

Lemma run_timers_issued (es : list event) (s s' : State) :
  timers_issued s -> run s es = Some s' -> timers_issued s'.
Proof.
  revert s. induction es as [| e es IH]; intros s Hs; simpl.
  - intros Heq. inversion Heq. now subst.
  - destruct (step s e) as [s1 |] eqn:Hstep; simpl; [| discriminate].
    apply IH. now apply (step_timers_issued s s1 e).
Qed.

Lemma run_cleared (t : nat) (es : list event) (s s' : State) :
  cleared t s -> run s es = Some s' -> cleared t s'.
Proof.
  revert s. induction es as [| e es IH]; intros s Hs; simpl.
  - intros Heq. inversion Heq. now subst.
  - destruct (step s e) as [s1 |] eqn:Hstep; simpl; [| discriminate].
    apply IH. now apply (step_cleared t s s1 e).
Qed.

(** X11: once a status answer has said "done" or a status request has
    failed, the timer that asked is cleared for good: in no later state
    of the component is it live again, so it sends no further status
    request, whatever refreshes follow. *)
Theorem cleared_timer_stays_cleared (s s1 s2 : State) (t : nat)
    (r : settled bool) (es : list event) :
  reachable s ->
  r <> Fulfilled true ->
  step s (StatusSettled t r) = Some s1 ->
  run s1 es = Some s2 ->
  ~ In t (timers s2) /\ step s2 (Tick t) = None.
Proof.
  intros [es0 Hreach] Hr Hstep Hrun.
  assert (Hissued : timers_issued s).
  { apply (run_timers_issued es0 initial s); [| exact Hreach].
    split; simpl; [tauto |]. intros t' [Hx | []]. discriminate. }
  assert (Hcleared : cleared t s1).
  { simpl in Hstep.
    destruct (resume (AwaitStatus t) s) as [s' |] eqn:Hres; simpl in Hstep;
      [| discriminate].
    apply resume_inv in Hres as (ts & Hts & ->).
    assert (Hlt : t < next_timer s).
    { apply (proj2 Hissued). now apply (remove_first_in _ _ _ Hts). }
    assert (Hgone : ~ In t (List.filter (fun t' => negb (Nat.eqb t' t)) (timers s))).
    { rewrite filter_In. intros [_ Hneq]. now rewrite Nat.eqb_refl in Hneq. }
    destruct r as [[|] | message]; [congruence | |];
      inversion Hstep; subst; split; simpl; assumption. }
  destruct (run_cleared t es s1 s2 Hcleared Hrun) as [_ Hout].
  split; [exact Hout |]. simpl.
  destruct (existsb (Nat.eqb t) (timers s2)) eqn:Hex; [| reflexivity].
  apply existsb_exists in Hex as (x & Hx & Heqb).
  apply Nat.eqb_eq in Heqb. subst. contradiction.
Qed.

End TimerFacts.

Section DemoLoadFacts.
Import App.

(** X12: from rest, Load Demo sends the demo request with both header
    buttons disabled and the old error still up; when it succeeds the
    component fetches once and shows what the fetch brought, when it
    fails nothing is fetched, the data on screen stay and the message is
    shown; either way the component is at rest again. *)
Theorem load_demo_run (s : State) (d : Data) (message : string) :
  quiescent s ->
  (exists s1,
      run s [ClickLoadDemo] = Some s1
      /\ loading s1 = true /\ error s1 = error s
      /\ step s1 ClickRefresh = None /\ step s1 ClickLoadDemo = None
      /\ calls s1 = (calls s ++ [CallLoadDemo])%list)
  /\ (exists s2,
        run s [ClickLoadDemo; DemoSettled (Fulfilled tt); FetchSettled (Fulfilled d)]
        = Some s2
        /\ shown s2 = d /\ error s2 = None /\ quiescent s2
        /\ calls s2 = (calls s ++ [CallLoadDemo; CallFetchAll])%list)
  /\ (exists s3,
        run s [ClickLoadDemo; DemoSettled (Failed message)] = Some s3
        /\ shown s3 = shown s /\ error s3 = Some message /\ quiescent s3
        /\ calls s3 = (calls s ++ [CallLoadDemo])%list).
Proof.
  intros (Hl & Hr & Ht & Hi). destruct s, d; simpl in *; subst.
  split; [| split]; eexists; (split; [reflexivity |]); simpl;
    unfold quiescent, shown; simpl; rewrite <- ?app_assoc; auto 10.
Qed.

End DemoLoadFacts.

Section UseFetchFacts.
Import Hooks.
Context {D : Type}.

Definition is_refetch (e : fetch_event D) : bool :=
  match e with Refetch => true | Settled _ => false end.

Lemma fetch_step_facts (s s' : FetchState D) (e : fetch_event D) :
  fetch_step D s e = Some s' ->
  data s' = last_fulfilled D (data s) [e]
  /\ ((loading s = true -> 0 < in_flight s) -> loading s' = true -> 0 < in_flight s')
  /\ (in_flight s' + (if is_refetch e then 0 else 1)
      = in_flight s + (if is_refetch e then 1 else 0))%nat
  /\ (loading s' = if is_refetch e then true else false).
Proof.
  destruct e as [| r]; simpl.
  - intros Heq. inversion Heq; subst. simpl. repeat split; lia.
  - destruct (in_flight s) as [| n] eqn:Hn; [discriminate |].
    intros Heq. inversion Heq; subst.
    destruct r; simpl; repeat split; try discriminate; lia.
Qed.

(** X13: in [useFetch], [data] is always the result of the call that was
    fulfilled last, in the order the answers arrive and not the order the
    calls were made, and a failed call leaves it as it was; every
    settlement turns [loading] off, also while other calls are still out;
    and as many calls are out as were made and have not settled. *)
Theorem useFetch_run (s s' : FetchState D) (es : list (fetch_event D)) :
  fetch_run D s es = Some s' ->
  data s' = last_fulfilled D (data s) es
  /\ ((loading s = true -> 0 < in_flight s) -> loading s' = true -> 0 < in_flight s')
  /\ (in_flight s' + length (List.filter (fun e => negb (is_refetch e)) es)
      = in_flight s + length (List.filter is_refetch es))%nat
  /\ (forall r, last es = Some (Settled r) -> loading s' = false).
Proof.
  revert s. induction es as [| e es IH]; intros s; simpl.
  - intros Heq. inversion Heq; subst. repeat split; auto. discriminate.
  - destruct (fetch_step D s e) as [s1 |] eqn:Hstep; [| discriminate].
    intros Hrun. destruct (IH s1 Hrun) as (Hdata & Hload & Hcount & Hlast).
    destruct (fetch_step_facts s s1 e Hstep) as (Hd1 & Hl1 & Hc1 & Hlo1).
    split; [| split; [| split]].
    + rewrite Hdata, Hd1. simpl. destruct e as [| [result | message]]; reflexivity.
    + intros H0. apply Hload, Hl1, H0.
    + destruct (is_refetch e); simpl; lia.
    + intros r Hr. destruct es as [| e' es'].
      * simpl in Hrun. inversion Hrun; subst. rewrite Hlo1.
        simpl in Hr. inversion Hr; subst. reflexivity.
      * apply (Hlast r). rewrite <- Hr. now rewrite last_cons_cons.
Qed.

End UseFetchFacts.

(** ** Sample runs *)

(** A refresh that fails after the first load leaves the first load's
    data on screen. *)
Lemma shown_is_last_fetched_witness :
  exists s',
    App.run App.initial
      [App.FetchSettled (App.Fulfilled demo_data); App.ClickRefresh;
       App.RefreshSettled (App.Failed "Request failed: 500");
       App.ClickLoadDemo; App.DemoSettled (App.Failed "Failed to fetch")]
    = Some s'
    /\ shown s' = demo_data.
Proof.
  eexists. split; [vm_compute; reflexivity |].
  refine (shown_is_last_fetched App.initial _
            [App.FetchSettled (App.Fulfilled demo_data); App.ClickRefresh;
             App.RefreshSettled (App.Failed "Request failed: 500");
             App.ClickLoadDemo; App.DemoSettled (App.Failed "Failed to fetch")] _).
  vm_compute. reflexivity.
Defined.

Lemma spinners_never_orphaned_witness :
  App.refreshing refreshing_and_loading = true
  /\ App.loading refreshing_and_loading = true
  /\ (In App.AwaitRefresh (App.tasks refreshing_and_loading)
      \/ App.timers refreshing_and_loading <> [])
  /\ (In App.AwaitFetch (App.tasks refreshing_and_loading)
      \/ In App.AwaitDemo (App.tasks refreshing_and_loading)).
Proof.
  destruct (spinners_never_orphaned refreshing_and_loading) as [Hr Hl].
  - exists [App.FetchSettled (App.Failed "Failed to fetch"); App.ClickRefresh;
            App.ClickLoadDemoData].
    vm_compute. reflexivity.
  - split; [reflexivity |]. split; [reflexivity |].
    split; [exact (Hr eq_refl) | exact (Hl eq_refl)].
Defined.

(** The timer of a finished refresh is not the timer of the next one. *)
Lemma cleared_timer_stays_cleared_witness :
  exists s s1 s2,
    App.run loaded [App.ClickRefresh; App.RefreshSettled (App.Fulfilled tt); App.Tick 0]
    = Some s
    /\ App.step s (App.StatusSettled 0 (App.Fulfilled false)) = Some s1
    /\ App.run s1 [App.FetchSettled (App.Fulfilled demo_data); App.ClickRefresh;
                   App.RefreshSettled (App.Fulfilled tt)] = Some s2
    /\ App.timers s2 = [1%nat]
    /\ App.step s2 (App.Tick 0) = None.
Proof.
  do 3 eexists.
  split; [vm_compute; reflexivity |].
  split; [vm_compute; reflexivity |].
  split; [vm_compute; reflexivity |].
  split; [vm_compute; reflexivity |].
  refine (proj2 (cleared_timer_stays_cleared _ _ _ 0%nat (App.Fulfilled false)
                   [App.FetchSettled (App.Fulfilled demo_data); App.ClickRefresh;
                    App.RefreshSettled (App.Fulfilled tt)] _ _ _ _)).
  - exists [App.FetchSettled (App.Fulfilled demo_data); App.ClickRefresh;
            App.RefreshSettled (App.Fulfilled tt); App.Tick 0].
    vm_compute. reflexivity.
  - discriminate.
  - vm_compute. reflexivity.
  - vm_compute. reflexivity.
Defined.

Lemma load_demo_run_witness :
  exists s2,
    App.run loaded
      [App.ClickLoadDemo; App.DemoSettled (App.Fulfilled tt);
       App.FetchSettled (App.Fulfilled demo_data)] = Some s2
    /\ shown s2 = demo_data
    /\ App.calls s2 = [App.CallFetchAll; App.CallLoadDemo; App.CallFetchAll].
Proof.
  assert (Hq : quiescent loaded) by (repeat split).
  destruct (load_demo_run loaded demo_data "" Hq)
    as (_ & (s2 & Hrun & Hshown & _ & _ & Hcalls) & _).
  exists s2. split; [exact Hrun |]. split; [exact Hshown | exact Hcalls].
Defined.

(** Two calls whose answers come back in the other order: the older
    answer is the one that stays. *)
Lemma useFetch_run_witness :
  exists s',
    Hooks.fetch_run string (Hooks.mounted string)
      [Hooks.Refetch; Hooks.Refetch;
       Hooks.Settled (App.Fulfilled "second call");
       Hooks.Settled (App.Fulfilled "first call")] = Some s'
    /\ Hooks.data s' = Some "first call"
    /\ Hooks.loading s' = false.
Proof.
  eexists. split; [reflexivity |].
  destruct (useFetch_run (Hooks.mounted string) _
              [Hooks.Refetch; Hooks.Refetch;
               Hooks.Settled (App.Fulfilled "second call");
               Hooks.Settled (App.Fulfilled "first call")] eq_refl)
    as (Hdata & _ & _ & Hlast).
  split; [exact Hdata |]. exact (Hlast _ eq_refl).
Defined.

(** An edge type, a risk level, a category and a direction the tables do
    not know. *)
Lemma opportunity_badges_witness :
  OpportunityCard.typeInfo "temporal"
  = {| OpportunityCard.label := "temporal"; OpportunityCard.color := "gray" |}
  /\ OpportunityCard.riskColor "extreme" = "gray".
Proof.
  assert (H1 : ~ In "temporal" inherited_keys)
    by (cbn; intuition discriminate).
  assert (H2 : ~ In "extreme" inherited_keys)
    by (cbn; intuition discriminate).
  destruct (opportunity_badges "temporal" "extreme" H1 H2)
    as (_ & Hraw & _ & Hgray & _).
  split; [apply Hraw; reflexivity |].
  apply Hgray. cbn. intuition discriminate.
Defined.

Lemma category_badge_witness : MarketCard.categoryColor "weather" = "gray".
Proof.
  assert (H1 : ~ In "weather" inherited_keys) by (cbn; intuition discriminate).
  destruct (category_badge "weather" H1) as [_ Hiff].
  destruct (string_dec (MarketCard.categoryColor "weather") "gray") as [Hg | Hn];
    [exact Hg |].
  apply Hiff in Hn. cbn in Hn. exfalso. intuition discriminate.
Defined.

Lemma prediction_badges_witness :
  PredictionCard.directionInfo "sell"
  = {| PredictionCard.label := "sell"; PredictionCard.color := "gray" |}
  /\ PredictionCard.edge_class 0 = "text-red".
Proof.
  assert (H1 : ~ In "sell" inherited_keys) by (cbn; intuition discriminate).
  destruct (prediction_badges "sell" 0%Q H1) as (Hraw & _ & _ & _ & Hred & _).
  split.
  - apply Hraw. cbn. intuition discriminate.
  - apply Hred. discriminate.
Defined.
